(** * book-agents-mvp: the brief-to-scene pipeline

    A shallow embedding of the three agents of the repository
    ([agents/planner.py], [agents/writer.py], [agents/editor.py]) and of
    the text-generation client ([engine/llm.py]), followed by the
    properties of the pipeline that the specification states.

    Python's [str] is a sequence of Unicode code points: it is modelled
    as [list N].  The built-in string methods the agents call are
    written out in [Module Py]; [str.lower] needs the Unicode case
    tables and is taken as a parameter [lower] of every function that
    calls it, with [Py.lower_latin1] as the instance used to evaluate
    the agents on concrete Portuguese text. *)

From stdpp Require Import base decidable option list strings gmap.
From Stdlib Require Import NArith ZArith Lia.

Local Open Scope N_scope.
Local Open Scope list_scope.

(** ** Python strings *)

Module Py.

Abbreviation str := (list N).

(** *** Literals: UTF-8 source text decoded to code points *)

Definition byte_of (a : Ascii.ascii) : N := Ascii.N_of_ascii a.

Fixpoint bytes_of (s : string) : list N :=
  match s with
  | EmptyString => []
  | String a r => byte_of a :: bytes_of r
  end.

Definition cont (b : N) : N := N.land b 63.

Fixpoint utf8_decode (bs : list N) : str :=
  match bs with
  | [] => []
  | b0 :: r0 =>
      if b0 <? 128 then b0 :: utf8_decode r0
      else if b0 <? 224 then
        match r0 with
        | b1 :: r1 =>
            N.lor (N.shiftl (N.land b0 31) 6) (cont b1) :: utf8_decode r1
        | _ => []
        end
      else if b0 <? 240 then
        match r0 with
        | b1 :: b2 :: r2 =>
            N.lor (N.shiftl (N.land b0 15) 12)
              (N.lor (N.shiftl (cont b1) 6) (cont b2)) :: utf8_decode r2
        | _ => []
        end
      else
        match r0 with
        | b1 :: b2 :: b3 :: r3 =>
            N.lor (N.shiftl (N.land b0 7) 18)
              (N.lor (N.shiftl (cont b1) 12)
                 (N.lor (N.shiftl (cont b2) 6) (cont b3))) :: utf8_decode r3
        | _ => []
        end
  end.

(** [lit "..."] is the Python literal with the same source text. *)
Definition lit (s : string) : str := utf8_decode (bytes_of s).

Definition nl : str := [10].
Definition dq : str := [34].

(** *** Truthiness, [or], [len] *)

Definition truthy (s : str) : bool :=
  match s with [] => false | _ => true end.

(** [x or d] on strings. *)
Definition or_else (x d : str) : str := if truthy x then x else d.

Definition len (s : str) : Z := Z.of_nat (length s).

(** *** [sub in s], [startswith], [endswith], [find] *)

Fixpoint startswith (s p : str) {struct p} : bool :=
  match p, s with
  | [], _ => true
  | _ :: _, [] => false
  | a :: p', b :: s' => if bool_decide (a = b) then startswith s' p' else false
  end.

Definition endswith (s p : str) : bool := startswith (rev s) (rev p).

Fixpoint contains (sub s : str) : bool :=
  if startswith s sub then true
  else match s with
       | [] => false
       | _ :: t => contains sub t
       end.

(** [find_from sub s i] is the lowest index [j] of an occurrence of
    [sub] in [s], counted from [i] for the head of [s]; [-1] if none. *)
Fixpoint find_from (sub s : str) (i : Z) : Z :=
  if startswith s sub then i
  else match s with
       | [] => (-1)%Z
       | _ :: t => find_from sub t (i + 1)%Z
       end.

(** [s.find(sub, start)] for [0 <= start]. *)
Definition find (s sub : str) (start : Z) : Z :=
  if (Z.of_nat (length s) <? start)%Z then (-1)%Z
  else find_from sub (drop (Z.to_nat start) s) start.

(** [s[a:b]] for [0 <= a] and [0 <= b]. *)
Definition slice (s : str) (a b : Z) : str :=
  take (Z.to_nat b - Z.to_nat a)%nat (drop (Z.to_nat a) s).

(** *** [replace], [split], [join] *)

(** [s.replace(old, new)]: occurrences are found left to right and do
    not overlap; [skip] counts the characters of a matched occurrence
    still to be passed over. *)
Fixpoint replace_go (old new : str) (skip : nat) (s : str) : str :=
  match s with
  | [] => []
  | c :: t =>
      match skip with
      | S k => replace_go old new k t
      | O =>
          if startswith s old
          then new ++ replace_go old new (length old - 1)%nat t
          else c :: replace_go old new O t
      end
  end.

Definition replace (s old new : str) : str :=
  match old with
  | [] => new ++ flat_map (fun c => c :: new) s
  | _ :: _ => replace_go old new O s
  end.

(** [s.split(sep)] for a non-empty [sep]; [cur] is the piece being
    accumulated. *)
Fixpoint split_go (sep : str) (skip : nat) (cur : str) (s : str) : list str :=
  match s with
  | [] => [cur]
  | c :: t =>
      match skip with
      | S k => split_go sep k cur t
      | O =>
          if startswith s sep
          then cur :: split_go sep (length sep - 1)%nat [] t
          else split_go sep O (cur ++ [c]) t
      end
  end.

Definition split (s sep : str) : list str := split_go sep O [] s.

Fixpoint join (sep : str) (parts : list str) : str :=
  match parts with
  | [] => []
  | [p] => p
  | p :: ps => p ++ sep ++ join sep ps
  end.

(** *** [strip] *)

(** [str.isspace] on one code point. *)
Definition isspace (c : N) : bool :=
  ((9 <=? c) && (c <=? 13)) || ((28 <=? c) && (c <=? 32))
  || (c =? 133) || (c =? 160) || (c =? 5760)
  || ((8192 <=? c) && (c <=? 8202))
  || (c =? 8232) || (c =? 8233) || (c =? 8239) || (c =? 8287) || (c =? 12288).

Fixpoint lstrip (s : str) : str :=
  match s with
  | [] => []
  | c :: t => if isspace c then lstrip t else s
  end.

Fixpoint rstrip (s : str) : str :=
  match s with
  | [] => []
  | c :: t =>
      match rstrip t with
      | [] => if isspace c then [] else [c]
      | r => c :: r
      end
  end.

Definition strip (s : str) : str := rstrip (lstrip s).

(** *** [lower] on Basic Latin and Latin-1 Supplement

    On these two blocks [str.lower] maps each of [A-Z] and of
    U+00C0..U+00DE other than U+00D7 to the code point 32 above it and
    leaves every other code point alone. *)

Definition lower_cp (c : N) : N :=
  if ((65 <=? c) && (c <=? 90))
     || ((192 <=? c) && (c <=? 222) && negb (c =? 215))
  then c + 32 else c.

Definition lower_latin1 (s : str) : str := map lower_cp s.

End Py.

Import Py.


(** ** The Planner ([agents/planner.py])

    [Planner.__init__] copies four entries of the project data into the
    object; no method below reads them, so the methods are modelled as
    functions of their other arguments. *)

Module Planner.

Record elements := {
  characters : list str;
  setting : str;
  mood : str;
  conflict_type : str;
  time_period : str;
  weather : str;
  action : str
}.

Section WithLower.
Variable lower : str -> str.

(** [Planner._extract_elements] *)
Definition _extract_elements (brief : str) : elements :=
  let brief_lower := lower brief in
  {| characters :=
       (if contains (lit "ivana") brief_lower then [lit "Ivana"] else [])
       ++ (if contains (lit "dr. manoel") brief_lower
              || contains (lit "manoel") brief_lower
              || contains (lit "dr manoel") brief_lower
           then [lit "Dr. Manoel"] else [])
       ++ (if contains (lit "pai") brief_lower
              && contains (lit "filha") brief_lower
           then [lit "Pai"; lit "Filha"] else []);
     setting :=
       if contains (lit "masp") brief_lower
       then lit "MASP - Museu de Arte de São Paulo"
       else if contains (lit "biblioteca") brief_lower
       then lit "Biblioteca antiga"
       else if contains (lit "café") brief_lower
       then lit "Café em São Paulo"
       else if contains (lit "metrô") brief_lower
               || contains (lit "metro") brief_lower
       then lit "Estação de metrô"
       else [];
     mood :=
       if contains (lit "tenso") brief_lower then lit "tenso"
       else if contains (lit "suspense") brief_lower then lit "suspense"
       else if contains (lit "emotivo") brief_lower then lit "emotivo"
       else if contains (lit "ação") brief_lower
               || contains (lit "acao") brief_lower
       then lit "ação"
       else [];
     conflict_type :=
       if contains (lit "encontro") brief_lower then lit "encontro/confronto"
       else if contains (lit "discussão") brief_lower
               || contains (lit "discutindo") brief_lower
       then lit "discussão"
       else if contains (lit "diálogo") brief_lower
               || contains (lit "dialogo") brief_lower
       then lit "diálogo"
       else [];
     time_period :=
       if contains (lit "noite") brief_lower then lit "noite"
       else if contains (lit "dia") brief_lower then lit "dia"
       else if contains (lit "tarde") brief_lower then lit "tarde"
       else if contains (lit "manhã") brief_lower
               || contains (lit "manha") brief_lower
       then lit "manhã"
       else [];
     weather :=
       if contains (lit "chuvosa") brief_lower
          || contains (lit "chuva") brief_lower
       then lit "chuva"
       else if contains (lit "sol") brief_lower
               || contains (lit "ensolarado") brief_lower
       then lit "sol"
       else [];
     action :=
       if contains (lit "rush") brief_lower
          || contains (lit "lotado") brief_lower
       then lit "movimento intenso"
       else if contains (lit "vazio") brief_lower
               || contains (lit "silencioso") brief_lower
       then lit "ambiente calmo"
       else []
  |}.

End WithLower.

(** The four six-step outlines of the narrative-progression block. *)

Definition tense_rain_outline : list str :=
  [ lit "1. **Abertura atmosférica**: Estabelecer ambiente tenso com chuva";
    lit "2. **Chegada dos personagens**: Entrada gradual, criando expectativa";
    lit "3. **Confronto inicial**: Primeiras palavras carregadas de tensão";
    lit "4. **Escalada da tensão**: Revelações e posicionamentos";
    lit "5. **Clímax do encontro**: Momento de maior intensidade";
    lit "6. **Resolução/gancho**: Desfecho que mantém suspense" ].

Definition emotional_outline : list str :=
  [ lit "1. **Ambientação emotiva**: Estabelecer cenário íntimo";
    lit "2. **Encontro dos personagens**: Aproximação gradual";
    lit "3. **Abertura emocional**: Primeiras palavras sinceras";
    lit "4. **Desenvolvimento**: Aprofundamento da conversa";
    lit "5. **Clímax emocional**: Momento de maior vulnerabilidade";
    lit "6. **Resolução**: Conexão ou separação definitiva" ].

Definition action_outline : list str :=
  [ lit "1. **Setup dinâmico**: Estabelecer ambiente de movimento";
    lit "2. **Incidente inicial**: Evento que desencadeia a ação";
    lit "3. **Escalada**: Intensificação da situação";
    lit "4. **Complicações**: Obstáculos e desafios";
    lit "5. **Clímax de ação**: Momento de maior intensidade";
    lit "6. **Resolução**: Consequências e desfecho" ].

Definition generic_outline : list str :=
  [ lit "1. **Abertura**: Estabelecer cenário e atmosfera";
    lit "2. **Desenvolvimento**: Introdução dos personagens";
    lit "3. **Conflito**: Tensão ou situação central";
    lit "4. **Desenvolvimento**: Aprofundamento da situação";
    lit "5. **Clímax**: Momento decisivo";
    lit "6. **Resolução**: Desfecho da cena" ].

(** [Planner._create_scene_structure], block by block: each definition
    is the list of strings the corresponding run of
    [plan_parts.append] calls adds. *)

Definition header_block (brief : str) : list str :=
  [ lit "## ESTRUTURA DA CENA";
    nl ++ lit "**Brief Original:** " ++ brief ].

Definition setting_heading : str := nl ++ lit "### 1. AMBIENTAÇÃO".

Definition setting_block (e : elements) : list str :=
  [ lit "- **Local**: " ++ or_else (setting e) (lit "Local a definir");
    lit "- **Período**: " ++ or_else (time_period e) (lit "Período a definir");
    lit "- **Clima**: " ++ or_else (weather e) (lit "Clima neutro");
    lit "- **Atmosfera**: " ++ or_else (mood e) (lit "Atmosfera neutra") ]
  ++ (if truthy (action e)
      then [ lit "- **Movimento**: " ++ action e ]
      else []).

Definition characters_heading : str := nl ++ lit "### 2. PERSONAGENS".

Definition characters_block (e : elements) : list str :=
  match characters e with
  | [] => [ lit "- Personagens a definir" ]
  | chars => map (fun char => lit "- " ++ char) chars
  end.

Definition progression_heading : str := nl ++ lit "### 3. PROGRESSÃO NARRATIVA".

Definition progression_block (e : elements) : list str :=
  if bool_decide (mood e = lit "tenso") && bool_decide (weather e = lit "chuva")
  then tense_rain_outline
  else if bool_decide (mood e = lit "emotivo") then emotional_outline
  else if bool_decide (mood e = lit "ação") then action_outline
  else generic_outline.

Definition technical_heading : str := nl ++ lit "### 4. ELEMENTOS TÉCNICOS".

Definition technical_block (e : elements) : list str :=
  [ lit "- **Foco narrativo**: Terceira pessoa onisciente" ]
  ++ (if bool_decide (mood e = lit "tenso")
      then [ lit "- **Ritmo**: Lento e deliberado, construindo tensão";
             lit "- **Recursos**: Descrição sensorial, silêncios significativos" ]
      else if bool_decide (mood e = lit "ação")
      then [ lit "- **Ritmo**: Rápido e dinâmico";
             lit "- **Recursos**: Frases curtas, verbos de ação" ]
      else if bool_decide (mood e = lit "emotivo")
      then [ lit "- **Ritmo**: Pausado e reflexivo";
             lit "- **Recursos**: Introspecção, detalhes emotivos" ]
      else [ lit "- **Ritmo**: Equilibrado";
             lit "- **Recursos**: Descrição equilibrada" ])
  ++ [ lit "- **Diálogos**: Naturais e adequados ao tom da cena" ].

(** The list [plan_parts] as it stands before the final join. *)
Definition plan_parts (e : elements) (brief : str) : list str :=
  header_block brief
  ++ [setting_heading] ++ setting_block e
  ++ [characters_heading] ++ characters_block e
  ++ [progression_heading] ++ progression_block e
  ++ [technical_heading] ++ technical_block e.

Definition _create_scene_structure (e : elements) (brief : str) : str :=
  join nl (plan_parts e brief).

(** [Planner.plan_scene] *)
Definition plan_scene (lower : str -> str) (brief : str) : str :=
  let elements := _extract_elements lower brief in
  _create_scene_structure elements brief.

End Planner.

(** ** The generation service client ([engine/llm.py])

    The client talks to a local HTTP service.  The service is modelled
    as a script: the list of outcomes its next requests will have.
    Every request consumes the head of the script and is recorded, so
    that a run of the client is a function from the script to a result
    and the list of requests it sent. *)

Module Net.

(** What the client reads of a JSON body: the [name]s under [models]
    and the [response] text, each absent in a body without the key. *)
Inductive body :=
| NotJson
| Json (models : list str) (response : option str).

Inductive outcome :=
| Response (status_code : Z) (b : body)
| Timeout
| ConnectionError
| OtherError.

(** The sampling options [temperature], [top_p] and [top_k] are floats
    the client passes through unread; they are left out of the record
    of a request. *)
Inductive request :=
| GET_tags (timeout : Z)
| POST_generate (model prompt : str) (num_predict : Z) (timeout : Z).

Record net := { pending : list outcome; sent : list request }.

Definition M (A : Type) : Type := net -> A * net.

Definition ret {A} (a : A) : M A := fun n => (a, n).

Definition bind {A B} (m : M A) (k : A -> M B) : M B :=
  fun n => let (a, n') := m n in k a n'.

Notation "x <- m ;; k" := (bind m (fun x => k))
  (at level 100, m at next level, right associativity).

(** One HTTP exchange; a service whose script is exhausted refuses the
    connection. *)
Definition http (r : request) : M outcome :=
  fun n =>
    match pending n with
    | [] => (ConnectionError, {| pending := []; sent := sent n ++ [r] |})
    | o :: rest => (o, {| pending := rest; sent := sent n ++ [r] |})
    end.

End Net.

Import Net.

Module LLMEngine.

(** The engine object: [model] is read from the configuration file by
    [LLMEngine.__init__] and is a parameter here. *)
Record t := { model : str }.

Definition brief_marker : str := lit "BRIEF DA CENA:".

(** [LLMEngine._fallback_response] *)
Definition _fallback_response (self : t) (prompt : str) : str :=
  let brief :=
    if contains brief_marker prompt then
      let brief_start := (find prompt brief_marker 0 + len brief_marker)%Z in
      let brief_end := find prompt (nl ++ nl) brief_start in
      let brief_end :=
        if (brief_end =? -1)%Z then (brief_start + 200)%Z else brief_end in
      strip (slice prompt brief_start brief_end)
    else lit "cena não especificada" in
  join nl
    [ lit "[Gerado com fallback - Ollama indisponível]";
      [];
      lit "**Cena baseada no brief:** " ++ brief;
      [];
      lit "O ambiente estava carregado de expectativa. A atmosfera densa prenunciava que algo importante estava prestes a acontecer.";
      [];
      lit "Os personagens se encontraram no local combinado, cada um trazendo suas próprias motivações e segredos. Havia uma tensão palpável no ar, como se as palavras não ditas pesassem mais do que aquelas que seriam pronunciadas.";
      [];
      dq ++ lit "Precisamos conversar," ++ dq ++ lit " disse uma voz, quebrando o silêncio.";
      [];
      dq ++ lit "Eu sei," ++ dq ++ lit " veio a resposta, carregada de significado.";
      [];
      lit "O diálogo que se seguiu revelou camadas de complexidade que nenhum dos dois havia antecipado. Cada palavra trocada os aproximava mais de uma verdade que ambos temiam e desejavam ao mesmo tempo.";
      [];
      lit "Quando o encontro chegou ao fim, ambos sabiam que nada seria como antes. As decisões tomadas naquele momento ecoariam por muito tempo, moldando o futuro de maneiras que ainda não conseguiam compreender completamente.";
      [];
      lit "*[Nota: Para obter conteúdo gerado por IA, certifique-se de que o Ollama está rodando e o modelo "
        ++ model self ++ lit " está disponível]*" ].

(** [LLMEngine.is_available]: any exception gives [False]. *)
Definition is_available (self : t) : M bool :=
  o <- http (GET_tags 5) ;;
  ret match o with
      | Response status_code _ => (status_code =? 200)%Z
      | _ => false
      end.

(** [LLMEngine._ensure_model_loaded]: any exception, a body that is
    not JSON included, gives [False]. *)
Definition _ensure_model_loaded (self : t) : M bool :=
  o <- http (GET_tags 10) ;;
  match o with
  | Response status_code b =>
      if negb (status_code =? 200)%Z then ret false
      else match b with
           | NotJson => ret false
           | Json model_names _ =>
               let model_found :=
                 existsb (fun name => contains (model self) name) model_names in
               if negb model_found then ret false
               else
                 test_response <- http (POST_generate (model self) (lit "Olá") 5 30) ;;
                 ret match test_response with
                     | Response status_code _ => (status_code =? 200)%Z
                     | _ => false
                     end
           end
  | _ => ret false
  end.

(** [LLMEngine.generate]: every failure, caught exceptions included,
    returns [_fallback_response prompt]. *)
Definition generate (self : t) (prompt : str) (max_tokens : Z) (timeout : Z)
  : M str :=
  loaded <- _ensure_model_loaded self ;;
  if negb loaded then ret (_fallback_response self prompt)
  else
    o <- http (POST_generate (model self) prompt max_tokens timeout) ;;
    match o with
    | Response status_code b =>
        if (status_code =? 200)%Z then
          match b with
          | NotJson => ret (_fallback_response self prompt)
          | Json _ response =>
              let generated_text := strip (default [] response) in
              if truthy generated_text && (50 <? len generated_text)%Z
              then ret generated_text
              else ret (_fallback_response self prompt)
          end
        else ret (_fallback_response self prompt)
    | _ => ret (_fallback_response self prompt)
    end.

End LLMEngine.


(** ** The Writer ([agents/writer.py]) *)

Module Writer.

Record t := {
  project_data : gmap string str;
  style_guide : str;
  characters_notes : str;
  world : str;
  timeline : str;
  llm : LLMEngine.t;
  use_fallback : bool
}.

(** [project_data.get(key, '')] *)
Definition get (project_data : gmap string str) (key : string) : str :=
  default [] (project_data !! key).

(** [Writer.__init__], named [init]; the engine it constructs is
    passed in.  The field [self.characters] is [characters_notes] here, the name
    [characters] being the one of the extracted feature below. *)
Definition init (project_data : gmap string str) (engine : LLMEngine.t)
  : M t :=
  available <- LLMEngine.is_available engine ;;
  ret {| project_data := project_data;
         style_guide := get project_data "style_guide";
         characters_notes := get project_data "characters";
         world := get project_data "world";
         timeline := get project_data "timeline";
         llm := engine;
         use_fallback := negb available |}.

Record elements := {
  setting : str;
  characters : list str;
  mood : str;
  time : str;
  weather : str;
  action : str
}.

Section WithLower.
Variable lower : str -> str.

(** [Writer._analyze_brief] *)
Definition _analyze_brief (brief : str) : elements :=
  let brief_lower := lower brief in
  {| setting :=
       if contains (lit "masp") brief_lower
       then lit "MASP (Museu de Arte de São Paulo)"
       else if contains (lit "biblioteca") brief_lower
       then lit "biblioteca antiga"
       else if contains (lit "café") brief_lower
       then lit "café movimentado"
       else if contains (lit "metrô") brief_lower
               || contains (lit "metro") brief_lower
       then lit "estação de metrô"
       else [];
     characters :=
       (if contains (lit "ivana") brief_lower then [lit "Ivana"] else [])
       ++ (if contains (lit "dr. manoel") brief_lower
              || contains (lit "manoel") brief_lower
              || contains (lit "dr manoel") brief_lower
           then [lit "Dr. Manoel"] else [])
       ++ (if contains (lit "pai") brief_lower
              && contains (lit "filha") brief_lower
           then [lit "pai"; lit "filha"] else []);
     mood :=
       if contains (lit "tenso") brief_lower then lit "tenso"
       else if contains (lit "suspense") brief_lower then lit "suspense"
       else if contains (lit "emotivo") brief_lower then lit "emotivo"
       else if contains (lit "ação") brief_lower
               || contains (lit "acao") brief_lower
       then lit "ação"
       else [];
     time :=
       if contains (lit "noite") brief_lower then lit "noite"
       else if contains (lit "dia") brief_lower then lit "dia"
       else if contains (lit "tarde") brief_lower then lit "tarde"
       else if contains (lit "manhã") brief_lower
               || contains (lit "manha") brief_lower
       then lit "manhã"
       else [];
     weather :=
       if contains (lit "chuvosa") brief_lower
          || contains (lit "chuva") brief_lower
       then lit "chuva"
       else if contains (lit "sol") brief_lower then lit "sol"
       else [];
     action :=
       if contains (lit "encontro") brief_lower then lit "encontro"
       else if contains (lit "discussão") brief_lower
               || contains (lit "discutindo") brief_lower
       then lit "discussão"
       else if contains (lit "diálogo") brief_lower
               || contains (lit "dialogo") brief_lower
       then lit "diálogo"
       else if contains (lit "rush") brief_lower
               || contains (lit "lotado") brief_lower
       then lit "movimento intenso"
       else []
  |}.

End WithLower.

(** The fixed fragments of the rule-based scene. *)

Definition masp_rain_opening : str :=
  lit "A chuva tamborilava contra as grandes janelas do MASP, criando um ritmo hipnótico que ecoava pelos corredores vazios do museu. As luzes da Paulista se difundiam através das gotas d'água, pintando sombras dançantes nas paredes brancas.".

Definition rain_opening (setting : str) : str :=
  lit "A chuva caía pesadamente sobre a cidade, criando uma cortina de água que transformava "
  ++ setting ++ lit " em um refúgio isolado do mundo exterior.".

Definition masp_opening : str :=
  lit "O MASP se erguia majestoso na Paulista, suas linhas modernas contrastando com o movimento constante da avenida. No interior, o silêncio era quebrado apenas pelos passos ecoando no piso de concreto polido.".

Definition cafe_opening : str :=
  lit "O café fervilhava de atividade, o aroma intenso misturando-se às conversas sobrepostas e ao tinir constante de xícaras e pratos.".

Definition library_opening : str :=
  lit "A biblioteca antiga exalava o cheiro característico de livros velhos e madeira envelhecida. A luz filtrada pelas janelas altas criava um ambiente solene e contemplativo.".

Definition subway_opening : str :=
  lit "A estação de metrô pulsava com o movimento incessante de pessoas. O som dos trens chegando e partindo criava uma sinfonia urbana constante.".

Definition generic_opening : str :=
  lit "O ambiente estava carregado de expectativa, como se algo importante estivesse prestes a acontecer.".

Definition ivana_manoel_exchange : list str :=
  [ nl ++ lit "Ivana chegou primeiro, seus passos ecoando no espaço. Dr. Manoel apareceu momentos depois, o semblante grave.";
    nl ++ dq ++ lit "Você veio," ++ dq ++ lit " disse Ivana.";
    nl ++ dq ++ lit "Tinha que vir," ++ dq ++ lit " respondeu Dr. Manoel. "
       ++ dq ++ lit "Precisamos resolver isso." ++ dq;
    nl ++ lit "O silêncio se estendeu entre eles, carregado de tensão.";
    nl ++ dq ++ lit "Então você sabe a verdade," ++ dq ++ lit " ela disse.";
    nl ++ dq ++ lit "Sei mais do que você imagina," ++ dq
       ++ lit " ele respondeu, dando um passo à frente." ].

Definition father_daughter_vignette : list str :=
  [ nl ++ lit "O pai chegou pontualmente, como sempre. Sua filha já estava lá, mexendo nervosamente no celular, evitando o olhar direto que sabia que viria.";
    nl ++ lit "Quando seus olhos finalmente se encontraram, ambos souberam que aquela conversa não poderia ser adiada por mais tempo." ].

Definition generic_interaction : list str :=
  [ nl ++ lit "Os personagens se encontraram, cada um carregando suas próprias intenções. A conversa que se seguiu revelaria verdades há muito escondidas." ].

Definition rain_closing : str :=
  nl ++ lit "Lá fora, a chuva continuava caindo, mas algo havia mudado entre eles. O que aconteceria a seguir dependeria das escolhas que cada um faria.".

Definition tense_closing : str :=
  nl ++ lit "O encontro chegava ao fim, mas as questões levantadas ecoariam por muito tempo. Algumas palavras, uma vez ditas, não podem ser desfeitas.".

Definition generic_closing : str :=
  nl ++ lit "Quando se separaram, ambos sabiam que nada seria como antes. As palavras trocadas ecoariam por muito tempo.".

(** [Writer._generate_scene_content], fragment by fragment: each
    definition is what its [if] chain adds to the list [content]. *)

Definition opening (e : elements) : list str :=
  if bool_decide (weather e = lit "chuva") && contains (lit "MASP") (setting e)
  then [masp_rain_opening]
  else if bool_decide (weather e = lit "chuva")
  then [rain_opening (setting e)]
  else if truthy (setting e) then
    if contains (lit "MASP") (setting e) then [masp_opening]
    else if contains (lit "café") (setting e) then [cafe_opening]
    else if contains (lit "biblioteca") (setting e) then [library_opening]
    else if contains (lit "metrô") (setting e) then [subway_opening]
    else []
  else [generic_opening].

Definition interaction (e : elements) : list str :=
  if bool_decide (lit "Ivana" ∈ characters e)
     && bool_decide (lit "Dr. Manoel" ∈ characters e)
  then ivana_manoel_exchange
  else if bool_decide (lit "pai" ∈ characters e)
          && bool_decide (lit "filha" ∈ characters e)
  then father_daughter_vignette
  else generic_interaction.

Definition closing (e : elements) : list str :=
  if bool_decide (weather e = lit "chuva") then [rain_closing]
  else if bool_decide (mood e = lit "tenso") then [tense_closing]
  else [generic_closing].

Definition content_parts (e : elements) : list str :=
  opening e ++ interaction e ++ closing e.

Definition _generate_scene_content (e : elements) (scene_plan brief : str)
  : str :=
  join nl (content_parts e).

(** [Writer._write_scene_fallback] *)
Definition _write_scene_fallback (lower : str -> str) (brief scene_plan : str)
  : str :=
  let scene_elements := _analyze_brief lower brief in
  _generate_scene_content scene_elements scene_plan brief.

(** The prompt of [Writer._write_scene_ai]. *)

Definition context_parts (self : t) : list str :=
  (if truthy (style_guide self)
   then [lit "GUIA DE ESTILO:" ++ nl ++ style_guide self] else [])
  ++ (if truthy (characters_notes self)
      then [lit "PERSONAGENS:" ++ nl ++ characters_notes self] else [])
  ++ (if truthy (world self)
      then [lit "MUNDO/CENÁRIO:" ++ nl ++ world self] else []).

Definition build_prompt (self : t) (brief scene_plan : str) : str :=
  let context :=
    match context_parts self with
    | [] => []
    | parts => join (nl ++ nl) parts
    end in
  join nl
    [ lit "Você é um escritor profissional especializado em narrativa literária. Sua tarefa é escrever uma cena baseada no brief e plano fornecidos.";
      [];
      context;
      [];
      lit "BRIEF DA CENA:";
      brief;
      [];
      lit "PLANO ESTRUTURAL:";
      scene_plan;
      [];
      lit "INSTRUÇÕES:";
      lit "- Escreva uma cena narrativa completa e envolvente";
      lit "- Use terceira pessoa onisciente";
      lit "- Inclua descrições sensoriais detalhadas";
      lit "- Desenvolva diálogos naturais e significativos";
      lit "- Mantenha consistência com o estilo e personagens";
      lit "- A cena deve ter entre 300-600 palavras";
      lit "- Use linguagem literária em português brasileiro";
      [];
      lit "CENA:" ].

(** [Writer._write_scene_ai].  [LLMEngine.generate] returns a string on
    each of its paths and raises nothing, so the [except] clause of the
    source has no counterpart here. *)
Definition _write_scene_ai (lower : str -> str) (self : t)
    (brief scene_plan : str) : M str :=
  let prompt := build_prompt self brief scene_plan in
  scene_content <- LLMEngine.generate (llm self) prompt 800 120 ;;
  let scene_content := strip scene_content in
  if negb (truthy scene_content) || (len scene_content <? 50)%Z
  then ret (_write_scene_fallback lower brief scene_plan)
  else ret scene_content.

(** [Writer.write_scene] *)
Definition write_scene (lower : str -> str) (self : t)
    (brief scene_plan : str) : M str :=
  if use_fallback self
  then ret (_write_scene_fallback lower brief scene_plan)
  else _write_scene_ai lower self brief scene_plan.

End Writer.

(** ** The Editor ([agents/editor.py])

    As for the Planner, no method reads the fields of the object. *)

Module Editor.

(** The dictionary [corrections], in insertion order, which is the
    order [corrections.items()] yields. *)
Definition corrections : list (str * str) :=
  [ (lit " ,", lit ",");
    (lit " .", lit ".");
    (lit "  ", lit " ");
    (nl ++ nl ++ nl, nl ++ nl) ].

(** [Editor._apply_style_corrections] *)
Definition _apply_style_corrections (content : str) : str :=
  fold_left (fun edited '(old, new) => replace edited old new)
    corrections content.

Definition rain_phrase : str := lit "tamborilava contra as grandes janelas".
Definition rain_phrase_enhanced : str :=
  lit "tamborilava incessantemente contra as grandes janelas de vidro".
Definition silhouette_phrase : str := lit "a silhueta familiar de Dr. Manoel".
Definition silhouette_phrase_enhanced : str :=
  lit "a silhueta inconfundível de Dr. Manoel".

Section WithLower.
Variable lower : str -> str.

(** The two tests of [Editor._enhance_paragraph]. *)
Definition rain_gate (paragraph : str) : bool :=
  contains (lit "chuva") (lower paragraph)
  && contains (lit "tamborilava") (lower paragraph).

Definition silhouette_gate (paragraph : str) : bool :=
  contains (lit "Dr. Manoel") paragraph && contains (lit "silhueta") paragraph.

(** [Editor._enhance_paragraph] *)
Definition _enhance_paragraph (paragraph : str) : str :=
  let enhanced := paragraph in
  let enhanced :=
    if rain_gate paragraph
    then replace paragraph rain_phrase rain_phrase_enhanced
    else enhanced in
  let enhanced :=
    if silhouette_gate paragraph
    then replace paragraph silhouette_phrase silhouette_phrase_enhanced
    else enhanced in
  enhanced.

(** [Editor._enhance_prose] *)
Definition _enhance_prose (content : str) : str :=
  let paragraphs := split content (nl ++ nl) in
  let enhanced_paragraphs :=
    flat_map (fun para =>
                if truthy (strip para) then [_enhance_paragraph para] else [])
      paragraphs in
  join (nl ++ nl) enhanced_paragraphs.

End WithLower.

(** The first substitution of [_add_final_formatting]: the pattern is
    one of the marks [.], [!], [?], captured, followed by two newlines
    and a double quote; the replacement is the captured mark, two
    newlines and a double quote.  Matches are taken left to right and
    do not overlap; [skip] counts the matched characters still to pass
    over. *)
Definition sentence_mark (c : N) : bool :=
  (c =? 46) || (c =? 33) || (c =? 63).

Fixpoint sub_dialogue_spacing (skip : nat) (s : str) : str :=
  match s with
  | [] => []
  | c :: t =>
      match skip with
      | S k => sub_dialogue_spacing k t
      | O =>
          if sentence_mark c && startswith t (nl ++ nl ++ dq)
          then [c] ++ nl ++ nl ++ dq ++ sub_dialogue_spacing 3 t
          else c :: sub_dialogue_spacing O t
      end
  end.

(** The second substitution: the pattern is three or more newlines,
    the replacement two.  At a position where three newlines start the
    whole run of newlines is matched (the repetition is greedy);
    [in_match] says that the characters read are the rest of a matched
    run. *)
Fixpoint sub_paragraph_breaks (in_match : bool) (s : str) : str :=
  match s with
  | [] => []
  | c :: t =>
      if in_match then
        if c =? 10 then sub_paragraph_breaks true t
        else c :: sub_paragraph_breaks false t
      else if startswith s (nl ++ nl ++ nl)
      then nl ++ nl ++ sub_paragraph_breaks true t
      else c :: sub_paragraph_breaks false t
  end.

(** [Editor._add_final_formatting] *)
Definition _add_final_formatting (content : str) : str :=
  let formatted := content in
  let formatted := sub_dialogue_spacing O formatted in
  let formatted := sub_paragraph_breaks false formatted in
  strip formatted.

(** [Editor._final_polish]: the three branches of the loop append the
    line as it is. *)
Definition _final_polish (content : str) : str :=
  let lines := split content nl in
  let polished_lines :=
    map (fun line =>
           if truthy (strip line) then
             if startswith (strip line) dq && endswith (strip line) dq
             then line
             else line
           else line)
      lines in
  let polished_content := join nl polished_lines in
  _add_final_formatting polished_content.

(** [Editor.edit_scene] *)
Definition edit_scene (lower : str -> str) (scene_content brief scene_plan : str)
  : str :=
  let edited_content := _apply_style_corrections scene_content in
  let edited_content := _enhance_prose lower edited_content in
  let edited_content := _final_polish edited_content in
  edited_content.

End Editor.

(** ** The claims' own vocabulary *)

(** The four outlines, and the selection rule in the words of the
    specification: Tense+Rain on mood tense with weather rain, else
    Emotional or Action by mood alone, else Generic. *)
Inductive outline := TenseRain | Emotional | Action | Generic.

Definition outline_steps (o : outline) : list str :=
  match o with
  | TenseRain => Planner.tense_rain_outline
  | Emotional => Planner.emotional_outline
  | Action => Planner.action_outline
  | Generic => Planner.generic_outline
  end.

Definition select_outline (mood weather : str) : outline :=
  if decide (mood = lit "tenso" /\ weather = lit "chuva") then TenseRain
  else if decide (mood = lit "emotivo") then Emotional
  else if decide (mood = lit "ação") then Action
  else Generic.

(** A dimension of the setting block: its label, then the extracted
    value, or the placeholder when nothing was extracted. *)
Definition rendered (label value placeholder : str) : str :=
  label ++ match value with [] => placeholder | _ => value end.

(** The brief of the specification's first scenario. *)
Definition scenario_brief : str :=
  lit "Escreva um encontro tenso no MASP entre Ivana e Dr. Manoel, noite chuvosa.".

(** A Writer in generation-service mode with no project data, and a
    service that lists the model, answers the warm-up and then returns
    a ten-character text. *)
Definition example_engine : LLMEngine.t := {| LLMEngine.model := lit "llama3.1" |}.

Definition example_writer : Writer.t :=
  {| Writer.project_data := ∅;
     Writer.style_guide := [];
     Writer.characters_notes := [];
     Writer.world := [];
     Writer.timeline := [];
     Writer.llm := example_engine;
     Writer.use_fallback := false |}.

Definition short_reply_service : net :=
  {| pending :=
       [ Response 200 (Json [lit "llama3.1:latest"] None);
         Response 200 (Json [] (Some (lit "Olá!")));
         Response 200 (Json [] (Some (lit "  Era noite.  "))) ];
     sent := [] |}.

(** ** The command-line pipeline ([app.py])

    [process_brief] shows the brief, constructs the three agents, of
    which the Writer probes the service, then plans, writes and edits,
    showing each text on the console as it goes.  [console.print]
    reads what it is given as markup and raises on markup it cannot
    parse, a closing tag that closes nothing for one; the exception
    leaves [process_brief], whose result is then [None].  What is
    shown is not recorded, whether showing it returns is. *)

Module App.

(** What [process_brief] hands to [console.print]: a markup string, or
    a [Panel] around one with its title and border style. *)
Inductive renderable :=
  | Markup (text : str)
  | Panel (text title border_style : str).

Definition brief_panel (brief_text : str) : renderable :=
  Panel (lit "[bold blue]Processando brief:[/bold blue]" ++ nl ++ brief_text)
    (lit " Brief") (lit "blue").

Definition planning_notice : renderable :=
  Markup (nl ++ lit "[yellow] Planejando a cena...[/yellow]").

Definition plan_panel (scene_plan : str) : renderable :=
  Panel scene_plan (lit " Plano da Cena") (lit "yellow").

Definition writing_notice : renderable :=
  Markup (nl ++ lit "[green] Escrevendo a cena...[/green]").

Definition scene_panel (scene_content : str) : renderable :=
  Panel scene_content (lit " Cena Escrita") (lit "green").

Definition editing_notice : renderable :=
  Markup (nl ++ lit "[magenta] Editando e refinando...[/magenta]").

Definition final_panel (final_content : str) : renderable :=
  Panel final_content (lit " Versão Final") (lit "magenta").

Section WithConsole.
Variable lower : str -> str.

(** [prints r]: [console.print(r)] returns. *)
Variable prints : renderable -> bool.

(** [console.print(r)], then the rest of the function. *)
Definition console_print {A : Type} (r : renderable) (rest : M (option A))
  : M (option A) :=
  if prints r then rest else ret None.

Definition process_brief (engine : LLMEngine.t)
    (brief_text : str) (project_data : gmap string str) : M (option str) :=
  console_print (brief_panel brief_text) (
  writer <- Writer.init project_data engine ;;
  console_print planning_notice (
  let scene_plan := Planner.plan_scene lower brief_text in
  console_print (plan_panel scene_plan) (
  console_print writing_notice (
  scene_content <- Writer.write_scene lower writer brief_text scene_plan ;;
  console_print (scene_panel scene_content) (
  console_print editing_notice (
  let final_content :=
    Editor.edit_scene lower scene_content brief_text scene_plan in
  console_print (final_panel final_content) (
  ret (Some final_content)))))))).

End WithConsole.

End App.

(** ** The two halves of [LLMEngine._fallback_response]

    The brief the method reads back from the prompt, and the text it
    builds around a brief, each as a function of its own, to state
    what the method quotes. *)

Module Canned.

Definition quoted_brief (prompt : str) : str :=
  if contains LLMEngine.brief_marker prompt then
    let brief_start :=
      (find prompt LLMEngine.brief_marker 0 + len LLMEngine.brief_marker)%Z in
    let brief_end := find prompt (nl ++ nl) brief_start in
    let brief_end :=
      if (brief_end =? -1)%Z then (brief_start + 200)%Z else brief_end in
    strip (slice prompt brief_start brief_end)
  else lit "cena não especificada".

Definition fallback_text (model brief : str) : str :=
  join nl
    [ lit "[Gerado com fallback - Ollama indisponível]";
      [];
      lit "**Cena baseada no brief:** " ++ brief;
      [];
      lit "O ambiente estava carregado de expectativa. A atmosfera densa prenunciava que algo importante estava prestes a acontecer.";
      [];
      lit "Os personagens se encontraram no local combinado, cada um trazendo suas próprias motivações e segredos. Havia uma tensão palpável no ar, como se as palavras não ditas pesassem mais do que aquelas que seriam pronunciadas.";
      [];
      dq ++ lit "Precisamos conversar," ++ dq ++ lit " disse uma voz, quebrando o silêncio.";
      [];
      dq ++ lit "Eu sei," ++ dq ++ lit " veio a resposta, carregada de significado.";
      [];
      lit "O diálogo que se seguiu revelou camadas de complexidade que nenhum dos dois havia antecipado. Cada palavra trocada os aproximava mais de uma verdade que ambos temiam e desejavam ao mesmo tempo.";
      [];
      lit "Quando o encontro chegou ao fim, ambos sabiam que nada seria como antes. As decisões tomadas naquele momento ecoariam por muito tempo, moldando o futuro de maneiras que ainda não conseguiam compreender completamente.";
      [];
      lit "*[Nota: Para obter conteúdo gerado por IA, certifique-se de que o Ollama está rodando e o modelo "
        ++ model ++ lit " está disponível]*" ].

End Canned.

(** A service that refuses the connection, then would answer. *)
Definition late_service : net :=
  {| pending :=
       [ ConnectionError;
         Response 200 (Json [lit "llama3.1:latest"] None) ];
     sent := [] |}.

(** A console on which every call returns. *)
Definition plain_console (r : App.renderable) : bool := true.

(** A console that raises on every text holding the closing tag [[/]]. *)
Definition strict_console (r : App.renderable) : bool :=
  match r with
  | App.Markup text | App.Panel text _ _ =>
      negb (contains (lit "[/]") text)
  end.

(** * Properties *)

(** ** Strings *)

Section StringFacts.
Implicit Types s t p old new : str.

Lemma contains_cons p c t :
  contains p (c :: t) = startswith (c :: t) p || contains p t.
Proof. simpl. destruct p; reflexivity. Qed.

Lemma contains_nil_l s : contains [] s = true.
Proof. destruct s; reflexivity. Qed.

(** A replacement with nothing to replace returns its argument. *)
Lemma replace_go_absent old new s :
  contains old s = false -> replace_go old new O s = s.
Proof.
  induction s as [|c t IH]; [reflexivity|].
  rewrite contains_cons. intros [H1 H2]%orb_false_elim.
  cbn [replace_go]. rewrite H1, (IH H2). reflexivity.
Qed.

Lemma replace_absent s old new :
  contains old s = false -> replace s old new = s.
Proof.
  destruct old as [|a old']; [now rewrite contains_nil_l|].
  apply replace_go_absent.
Qed.

End StringFacts.

(** Case analysis on every keyword test of a lower-cased brief. *)
Ltac split_keywords lower brief :=
  repeat match goal with
         | |- context [contains ?k (lower brief)] =>
             destruct (contains k (lower brief))
         end.

(** ** The Planner *)

(** Two different literals cannot both equal one string. *)
Ltac lit_clash :=
  exfalso;
  match goal with
  | H1 : ?m = lit ?a, H2 : ?m = lit ?b |- _ =>
      rewrite H1 in H2; vm_compute in H2; discriminate H2
  | H1 : ?m = lit ?a, H2 : ?m <> lit ?a |- _ => exact (H2 H1)
  | H1 : ?m = lit ?a, H2 : ?w = lit ?b, H3 : ~ (?m = lit ?a /\ ?w = lit ?b) |- _ =>
      exact (H3 (conj H1 H2))
  end.

Lemma progression_block_select (e : Planner.elements) :
  Planner.progression_block e
  = outline_steps (select_outline (Planner.mood e) (Planner.weather e)).
Proof.
  unfold Planner.progression_block, select_outline.
  destruct (decide (Planner.mood e = lit "tenso" /\ Planner.weather e = lit "chuva"))
    as [[Hm Hw]|Hno].
  - rewrite (bool_decide_eq_true_2 _ Hm), (bool_decide_eq_true_2 _ Hw).
    reflexivity.
  - replace (bool_decide (Planner.mood e = lit "tenso")
             && bool_decide (Planner.weather e = lit "chuva")) with false.
    2:{ symmetry. apply andb_false_iff.
        destruct (decide (Planner.mood e = lit "tenso")) as [Hm|Hm];
          [right | left; apply bool_decide_eq_false_2; exact Hm].
        apply bool_decide_eq_false_2. intros Hw. apply Hno. split; assumption. }
    destruct (decide (Planner.mood e = lit "emotivo")) as [He|He].
    + rewrite (bool_decide_eq_true_2 _ He). reflexivity.
    + rewrite (bool_decide_eq_false_2 _ He).
      destruct (decide (Planner.mood e = lit "ação")) as [Ha|Ha].
      * rewrite (bool_decide_eq_true_2 _ Ha). reflexivity.
      * rewrite (bool_decide_eq_false_2 _ Ha). reflexivity.
Qed.

Lemma outline_steps_inj (o o' : outline) :
  outline_steps o = outline_steps o' -> o = o'.
Proof.
  destruct o, o'; first [reflexivity | intros H; vm_compute in H; discriminate H].
Qed.

(** C3.  For every brief the narrative-progression block of the plan is
    exactly one of the four six-step outlines, the one the priority rule
    selects from the extracted mood and weather: Tense+Rain exactly on
    mood tense with weather rain, else Emotional, else Action, else
    Generic; suspense, and tense without rain, give Generic. *)
Theorem progression_outline_selected (lower : str -> str) (brief : str) :
  let e := Planner._extract_elements lower brief in
  let o := select_outline (Planner.mood e) (Planner.weather e) in
  Planner.progression_block e = outline_steps o
  /\ (forall o', Planner.progression_block e = outline_steps o' -> o' = o)
  /\ length (outline_steps o) = 6%nat
  /\ Planner.plan_parts e brief
     = (Planner.header_block brief
        ++ [Planner.setting_heading] ++ Planner.setting_block e
        ++ [Planner.characters_heading] ++ Planner.characters_block e)
       ++ [Planner.progression_heading] ++ outline_steps o
       ++ [Planner.technical_heading] ++ Planner.technical_block e
  /\ (o = TenseRain
      <-> Planner.mood e = lit "tenso" /\ Planner.weather e = lit "chuva")
  /\ (o = Emotional <-> Planner.mood e = lit "emotivo")
  /\ (o = Action <-> Planner.mood e = lit "ação")
  /\ (Planner.mood e = lit "suspense" -> o = Generic)
  /\ (Planner.mood e = lit "tenso" -> Planner.weather e <> lit "chuva"
      -> o = Generic).
Proof.
  intros e o.
  assert (Hsel : Planner.progression_block e = outline_steps o)
    by apply progression_block_select.
  split; [exact Hsel|].
  split; [intros o' Ho'; apply outline_steps_inj; congruence|].
  split; [destruct o; reflexivity|].
  split.
  { unfold Planner.plan_parts. rewrite Hsel, <- !app_assoc. reflexivity. }
  subst o. unfold select_outline.
  destruct (decide (Planner.mood e = lit "tenso" /\ Planner.weather e = lit "chuva"))
    as [[Hm Hw]|Hno];
    [|destruct (decide (Planner.mood e = lit "emotivo")) as [He|He];
      [|destruct (decide (Planner.mood e = lit "ação")) as [Ha|Ha]]];
    repeat split; intros;
    repeat match goal with H : _ /\ _ |- _ => destruct H end;
    first [reflexivity | assumption | discriminate | lit_clash].
Qed.

(** C4, as the code has it.  For every brief the setting block renders
    local, period, weather and mood each as the extracted value or its
    placeholder; the movement line follows only when a movement feature
    was extracted and has no placeholder. *)
Theorem setting_block_rendering (lower : str -> str) (brief : str) :
  let e := Planner._extract_elements lower brief in
  Planner.setting_block e
  = [ rendered (lit "- **Local**: ") (Planner.setting e) (lit "Local a definir");
      rendered (lit "- **Período**: ") (Planner.time_period e)
        (lit "Período a definir");
      rendered (lit "- **Clima**: ") (Planner.weather e) (lit "Clima neutro");
      rendered (lit "- **Atmosfera**: ") (Planner.mood e)
        (lit "Atmosfera neutra") ]
    ++ match Planner.action e with
       | [] => []
       | movement => [ lit "- **Movimento**: " ++ movement ]
       end
  /\ Planner.plan_parts e brief
     = Planner.header_block brief
       ++ [Planner.setting_heading] ++ Planner.setting_block e
       ++ [Planner.characters_heading]
       ++ (Planner.characters_block e
           ++ [Planner.progression_heading] ++ Planner.progression_block e
           ++ [Planner.technical_heading] ++ Planner.technical_block e).
Proof.
  intros e. split.
  - unfold Planner.setting_block, rendered, or_else, truthy.
    destruct (Planner.setting e), (Planner.time_period e),
      (Planner.weather e), (Planner.mood e), (Planner.action e); reflexivity.
  - reflexivity.
Qed.

(** C4, as stated, fails: the plan of the empty brief, from which no
    movement is extracted, has no movement line at all. *)
Lemma movement_line_absent :
  Planner.action (Planner._extract_elements lower_latin1 []) = []
  /\ contains (lit "Movimento") (Planner.plan_scene lower_latin1 []) = false
  /\ Planner.setting_block (Planner._extract_elements lower_latin1 [])
     = [ lit "- **Local**: Local a definir";
         lit "- **Período**: Período a definir";
         lit "- **Clima**: Clima neutro";
         lit "- **Atmosfera**: Atmosfera neutra" ].
Proof. repeat split; vm_compute; reflexivity. Qed.

(** C2.  The first scenario: the features extracted from the brief by
    the Planner and by the Writer, the Tense+Rain outline in the plan,
    and the MASP-rain opening, the six-line exchange of Ivana and
    Dr. Manoel and the rain closing in the rule-based scene. *)
Theorem scenario_one (lower : str -> str) :
  lower scenario_brief
  = lit "escreva um encontro tenso no masp entre ivana e dr. manoel, noite chuvosa." ->
  Planner._extract_elements lower scenario_brief
  = {| Planner.characters := [lit "Ivana"; lit "Dr. Manoel"];
       Planner.setting := lit "MASP - Museu de Arte de São Paulo";
       Planner.mood := lit "tenso";
       Planner.conflict_type := lit "encontro/confronto";
       Planner.time_period := lit "noite";
       Planner.weather := lit "chuva";
       Planner.action := [] |}
  /\ Writer._analyze_brief lower scenario_brief
     = {| Writer.setting := lit "MASP (Museu de Arte de São Paulo)";
          Writer.characters := [lit "Ivana"; lit "Dr. Manoel"];
          Writer.mood := lit "tenso";
          Writer.time := lit "noite";
          Writer.weather := lit "chuva";
          Writer.action := lit "encontro" |}
  /\ Planner.progression_block (Planner._extract_elements lower scenario_brief)
     = Planner.tense_rain_outline
  /\ Writer.opening (Writer._analyze_brief lower scenario_brief)
     = [Writer.masp_rain_opening]
  /\ Writer.interaction (Writer._analyze_brief lower scenario_brief)
     = Writer.ivana_manoel_exchange
  /\ length Writer.ivana_manoel_exchange = 6%nat
  /\ Writer.closing (Writer._analyze_brief lower scenario_brief)
     = [Writer.rain_closing]
  /\ Writer._write_scene_fallback lower scenario_brief
       (Planner.plan_scene lower scenario_brief)
     = join nl ([Writer.masp_rain_opening] ++ Writer.ivana_manoel_exchange
                ++ [Writer.rain_closing]).
Proof.
  intros Hlower.
  unfold Writer._write_scene_fallback, Writer._generate_scene_content,
    Writer.content_parts, Planner.plan_scene.
  unfold Planner._extract_elements, Writer._analyze_brief.
  rewrite Hlower.
  repeat split; vm_compute; reflexivity.
Qed.

Lemma scenario_one_witness :
  Planner.progression_block (Planner._extract_elements lower_latin1 scenario_brief)
  = Planner.tense_rain_outline
  /\ Writer._write_scene_fallback lower_latin1 scenario_brief
       (Planner.plan_scene lower_latin1 scenario_brief)
     = join nl ([Writer.masp_rain_opening] ++ Writer.ivana_manoel_exchange
                ++ [Writer.rain_closing]).
Proof.
  assert (Hlower : lower_latin1 scenario_brief
    = lit "escreva um encontro tenso no masp entre ivana e dr. manoel, noite chuvosa.")
    by (vm_compute; reflexivity).
  destruct (scenario_one lower_latin1 Hlower)
    as (_ & _ & Houtline & _ & _ & _ & _ & Hscene).
  exact (conj Houtline Hscene).
Defined.

(** ** The Writer *)

Lemma member_by_eval (x : str) (l : list str) :
  bool_decide (x ∈ l) = true -> x ∈ l.
Proof. apply bool_decide_eq_true_1. Qed.

Lemma not_member_by_eval (x : str) (l : list str) :
  bool_decide (x ∈ l) = false -> x ∉ l.
Proof. apply bool_decide_eq_false_1. Qed.

(** Membership of a literal in a list of literals against a boolean
    constant, both directions, by evaluation. *)
Ltac decide_member :=
  let Hx := fresh "Hx" in
  split; intros Hx;
  first [ discriminate Hx
        | reflexivity
        | apply member_by_eval; vm_compute; reflexivity
        | exfalso; revert Hx; apply not_member_by_eval; vm_compute; reflexivity ].

(** C9.  Father and daughter are detected jointly: in the Planner's
    extraction and in the Writer's, each of the two is among the
    characters exactly when the lower-cased brief contains both
    keywords, so that one keyword without the other adds neither. *)
Theorem father_daughter_jointly (lower : str -> str) (brief : str) :
  let both :=
    contains (lit "pai") (lower brief) && contains (lit "filha") (lower brief) in
  let planned := Planner.characters (Planner._extract_elements lower brief) in
  let analyzed := Writer.characters (Writer._analyze_brief lower brief) in
  (lit "Pai" ∈ planned <-> both = true)
  /\ (lit "Filha" ∈ planned <-> both = true)
  /\ (lit "pai" ∈ analyzed <-> both = true)
  /\ (lit "filha" ∈ analyzed <-> both = true)
  /\ (both = false ->
      planned = filter (fun c => c ∈ [lit "Ivana"; lit "Dr. Manoel"]) planned
      /\ analyzed = planned).
Proof.
  cbv zeta.
  unfold Planner._extract_elements, Writer._analyze_brief,
    Planner.characters, Writer.characters.
  split_keywords lower brief; cbv [andb orb];
    (split; [decide_member|split; [decide_member|split;
      [decide_member|split; [decide_member|]]]]);
    intros Hboth;
    first [discriminate Hboth | split; vm_compute; reflexivity].
Qed.

(** The rule-based scene ignores the plan and the brief text. *)
Lemma generate_scene_content_features (e : Writer.elements)
    (plan1 brief1 plan2 brief2 : str) :
  Writer._generate_scene_content e plan1 brief1
  = Writer._generate_scene_content e plan2 brief2.
Proof. reflexivity. Qed.

(** C7.  The rule-based fallback is a function of the extracted
    features alone: two calls whose briefs give equal features return
    the same text, whatever plans and briefs they were given. *)
Theorem fallback_depends_on_features (lower : str -> str)
    (brief1 plan1 brief2 plan2 : str) :
  Writer._analyze_brief lower brief1 = Writer._analyze_brief lower brief2 ->
  Writer._write_scene_fallback lower brief1 plan1
  = Writer._write_scene_fallback lower brief2 plan2.
Proof.
  intros Hfeatures. unfold Writer._write_scene_fallback.
  rewrite Hfeatures. apply generate_scene_content_features.
Qed.

Lemma fallback_depends_on_features_witness :
  Writer._write_scene_fallback lower_latin1
    (lit "Uma cena no MASP, noite de chuva.") (lit "plano A")
  = Writer._write_scene_fallback lower_latin1
      (lit "CHUVA à NOITE: o masp vazio") (lit "plano B").
Proof.
  apply (fallback_depends_on_features lower_latin1).
  vm_compute. reflexivity.
Defined.

(** ** The Editor *)

(** C10.  A paragraph that passes both tests of the enhancement pass
    comes out as the original paragraph with the silhouette phrase
    replaced and nothing else: the rain enhancement computed first is
    overwritten, not composed with. *)
Theorem enhancement_not_composed (lower : str -> str) (paragraph : str) :
  Editor.rain_gate lower paragraph = true ->
  Editor.silhouette_gate paragraph = true ->
  Editor._enhance_paragraph lower paragraph
  = replace paragraph Editor.silhouette_phrase Editor.silhouette_phrase_enhanced.
Proof.
  intros Hrain Hsilhouette. unfold Editor._enhance_paragraph.
  rewrite Hrain, Hsilhouette. reflexivity.
Qed.

Lemma enhancement_not_composed_witness :
  Editor._enhance_paragraph lower_latin1
    (lit "A chuva tamborilava contra as grandes janelas quando a silhueta familiar de Dr. Manoel surgiu.")
  = lit "A chuva tamborilava contra as grandes janelas quando a silhueta inconfundível de Dr. Manoel surgiu.".
Proof.
  etransitivity.
  - apply (enhancement_not_composed lower_latin1); vm_compute; reflexivity.
  - vm_compute. reflexivity.
Defined.

Section StripFacts.
Implicit Types s p : str.

Lemma startswith_app s p r :
  startswith s p = true -> startswith (s ++ r) p = true.
Proof.
  revert s. induction p as [|a p IH]; intros [|b s]; simpl;
    [reflexivity | reflexivity | discriminate |].
  destruct (bool_decide (a = b)); [apply IH | discriminate].
Qed.

Lemma contains_app_r s p r :
  contains p s = true -> contains p (s ++ r) = true.
Proof.
  induction s as [|c t IH].
  - simpl. destruct (startswith [] p) eqn:E; [|easy].
    intros _. destruct p; [apply contains_nil_l | discriminate E].
  - rewrite <- app_comm_cons, !contains_cons.
    intros [H|H]%orb_true_iff; apply orb_true_iff.
    + left. apply (startswith_app (c :: t)), H.
    + right. apply IH, H.
Qed.

Lemma contains_app_l s p r :
  contains p s = true -> contains p (r ++ s) = true.
Proof.
  intros H. induction r as [|c r IH]; [exact H|].
  rewrite <- app_comm_cons, contains_cons, IH. apply orb_true_r.
Qed.

Lemma lstrip_suffix s : exists pre, s = pre ++ lstrip s.
Proof.
  induction s as [|c t [pre IH]]; [now exists []|].
  simpl. destruct (isspace c).
  - exists (c :: pre). simpl. congruence.
  - now exists [].
Qed.

Lemma rstrip_prefix s : exists post, s = rstrip s ++ post.
Proof.
  induction s as [|c t [post IH]]; [now exists []|].
  simpl. destruct (rstrip t) as [|a r] eqn:E.
  - destruct (isspace c).
    + exists (c :: t). reflexivity.
    + exists t. reflexivity.
  - exists post. simpl. simpl in IH. congruence.
Qed.

(** What [strip] returns occurs in its argument. *)
Lemma contains_strip s p :
  contains p (strip s) = true -> contains p s = true.
Proof.
  intros H. unfold strip in H.
  destruct (lstrip_suffix s) as [pre Hpre].
  destruct (rstrip_prefix (lstrip s)) as [post Hpost].
  rewrite Hpre, Hpost. apply contains_app_l, contains_app_r, H.
Qed.

Lemma lstrip_head s c : head (lstrip s) = Some c -> isspace c = false.
Proof.
  induction s as [|a t IH]; [discriminate|].
  simpl. destruct (isspace a) eqn:E; [exact IH|].
  simpl. congruence.
Qed.

Lemma rstrip_head s c :
  head s = Some c -> isspace c = false -> head (rstrip s) = Some c.
Proof.
  destruct s as [|a t]; [discriminate|].
  simpl. intros [= ->] Hc. destruct (rstrip t); [rewrite Hc|]; reflexivity.
Qed.

Lemma rstrip_head_inv s c : head (rstrip s) = Some c -> head s = Some c.
Proof.
  destruct s as [|a t]; [discriminate|].
  simpl. destruct (rstrip t); [destruct (isspace a)|]; simpl; congruence.
Qed.

Lemma rstrip_last s c : last (rstrip s) = Some c -> isspace c = false.
Proof.
  induction s as [|a t IH]; [discriminate|].
  simpl. destruct (rstrip t) as [|b r] eqn:E.
  - destruct (isspace a) eqn:Ea; simpl; congruence.
  - intros H. apply IH. exact H.
Qed.

Lemma strip_head s c : head (strip s) = Some c -> isspace c = false.
Proof. intros H. apply (lstrip_head s), rstrip_head_inv, H. Qed.

Lemma strip_last s c : last (strip s) = Some c -> isspace c = false.
Proof. apply rstrip_last. Qed.

End StripFacts.

Section ParagraphBreaks.
Implicit Types s : str.

Lemma startswith_nl3 s :
  startswith s (nl ++ nl ++ nl)
  = match s with
    | a :: b :: c :: _ => (a =? 10) && (b =? 10) && (c =? 10)
    | _ => false
    end.
Proof.
  cbn. destruct s as [|a [|b [|c r]]]; try reflexivity;
    repeat (case_bool_decide; subst; cbn; try reflexivity);
    repeat match goal with
           | H : 10 <> ?x |- _ => apply N.eqb_neq in H; rewrite (N.eqb_sym x 10), ?H
           end; rewrite ?andb_false_r; reflexivity.
Qed.

Lemma breaks_in_match_head s :
  head (Editor.sub_paragraph_breaks true s) <> Some 10.
Proof.
  induction s as [|c t IH]; [discriminate|].
  simpl. destruct (N.eqb_spec c 10); [exact IH|].
  simpl. congruence.
Qed.

Lemma breaks_head s :
  head (Editor.sub_paragraph_breaks false s) = head s.
Proof.
  destruct s as [|c t]; [reflexivity|].
  cbn [Editor.sub_paragraph_breaks]. rewrite startswith_nl3.
  destruct t as [|b [|a r]]; try reflexivity.
  destruct (N.eqb_spec c 10); [|reflexivity].
  destruct (b =? 10), (a =? 10); subst; reflexivity.
Qed.

Lemma startswith_nl2 s :
  startswith s (nl ++ nl)
  = match s with
    | a :: b :: _ => (a =? 10) && (b =? 10)
    | _ => false
    end.
Proof.
  cbn. destruct s as [|a [|b r]]; try reflexivity;
    repeat (case_bool_decide; subst; cbn; try reflexivity);
    repeat match goal with
           | H : 10 <> ?x |- _ => apply N.eqb_neq in H; rewrite (N.eqb_sym x 10), ?H
           end; rewrite ?andb_false_r; reflexivity.
Qed.

Lemma startswith_nl3_cons c s :
  startswith (c :: s) (nl ++ nl ++ nl) = (c =? 10) && startswith s (nl ++ nl).
Proof.
  rewrite startswith_nl3, startswith_nl2.
  destruct s as [|a [|b r]]; rewrite ?andb_false_r, ?andb_assoc; reflexivity.
Qed.

Lemma startswith_nl2_head s :
  startswith s (nl ++ nl) = true -> head s = Some 10.
Proof.
  rewrite startswith_nl2. destruct s as [|a [|b r]]; try discriminate.
  intros [Ha _]%andb_true_iff. apply N.eqb_eq in Ha. subst. reflexivity.
Qed.

Lemma startswith_nl2_cons c s :
  startswith (c :: s) (nl ++ nl) = true -> c = 10 /\ head s = Some 10.
Proof.
  rewrite startswith_nl2. destruct s as [|b r]; [discriminate|].
  intros [Ha Hb]%andb_true_iff. apply N.eqb_eq in Ha, Hb. subst. split; reflexivity.
Qed.

(** Two newlines at the head of the result were at the head of the
    argument. *)
Lemma breaks_two_newlines s :
  startswith (Editor.sub_paragraph_breaks false s) (nl ++ nl) = true ->
  startswith s (nl ++ nl) = true.
Proof.
  destruct s as [|c t]; [discriminate|].
  cbn [Editor.sub_paragraph_breaks]. rewrite startswith_nl3_cons.
  destruct (c =? 10) eqn:Ec, (startswith t (nl ++ nl)) eqn:Et; cbn [andb].
  - intros _. rewrite startswith_nl2. apply N.eqb_eq in Ec. subst c.
    apply startswith_nl2_head in Et. destruct t as [|b r]; [discriminate|].
    injection Et as ->. reflexivity.
  - intros [_ H]%startswith_nl2_cons. rewrite breaks_head in H.
    apply N.eqb_eq in Ec. subst c. rewrite startswith_nl2.
    destruct t as [|b r]; [discriminate|]. injection H as ->. reflexivity.
  - intros [H _]%startswith_nl2_cons. apply N.eqb_neq in Ec. contradiction.
  - intros [H _]%startswith_nl2_cons. apply N.eqb_neq in Ec. contradiction.
Qed.

(** After the second substitution no three newlines are left in a row. *)
Lemma breaks_no_triple s in_match :
  contains (nl ++ nl ++ nl) (Editor.sub_paragraph_breaks in_match s) = false.
Proof.
  revert in_match. induction s as [|c t IH]; intros in_match.
  - destruct in_match; reflexivity.
  - destruct in_match; cbn [Editor.sub_paragraph_breaks].
    + destruct (c =? 10) eqn:Ec; [apply IH|].
      rewrite contains_cons, startswith_nl3_cons, Ec, IH. reflexivity.
    + rewrite startswith_nl3_cons.
      destruct (c =? 10) eqn:Ec; cbn [andb].
      * destruct (startswith t (nl ++ nl)) eqn:Et.
        -- pose proof (breaks_in_match_head t) as Hhead.
           change (nl ++ nl ++ Editor.sub_paragraph_breaks true t)
             with (10 :: 10 :: Editor.sub_paragraph_breaks true t).
           rewrite !contains_cons, !startswith_nl3_cons, IH.
           destruct (startswith (Editor.sub_paragraph_breaks true t) (nl ++ nl))
             eqn:E1; [apply startswith_nl2_head in E1; contradiction|].
           destruct (startswith (10 :: Editor.sub_paragraph_breaks true t) (nl ++ nl))
             eqn:E2; [apply startswith_nl2_cons in E2 as [_ E2]; contradiction|].
           reflexivity.
        -- rewrite contains_cons, startswith_nl3_cons, Ec, IH. cbn [andb].
           rewrite orb_false_r.
           destruct (startswith (Editor.sub_paragraph_breaks false t) (nl ++ nl))
             eqn:E; [|reflexivity].
           apply breaks_two_newlines in E. congruence.
      * rewrite contains_cons, startswith_nl3_cons, Ec, IH. reflexivity.
Qed.

End ParagraphBreaks.

(** C6.  Whatever the input, the edited text has no three newlines in
    a row, so that at most one blank line separates two paragraphs, and
    neither begins nor ends with a whitespace character. *)
Theorem edit_scene_well_formed (lower : str -> str)
    (scene_content brief scene_plan : str) :
  let final := Editor.edit_scene lower scene_content brief scene_plan in
  contains (nl ++ nl ++ nl) final = false
  /\ (forall c, head final = Some c -> isspace c = false)
  /\ (forall c, last final = Some c -> isspace c = false).
Proof.
  cbv zeta.
  unfold Editor.edit_scene, Editor._final_polish, Editor._add_final_formatting.
  repeat split.
  - match goal with
    | |- contains ?p (strip ?x) = false =>
        destruct (contains p (strip x)) eqn:E; [|reflexivity];
        apply contains_strip in E; rewrite breaks_no_triple in E; discriminate E
    end.
  - intros c. apply strip_head.
  - intros c. apply strip_last.
Qed.

(** A paragraph with neither phrase is left as it is, whichever tests
    it passes; so are all paragraphs of a text none of which has one. *)
Lemma enhance_paragraph_plain (lower : str -> str) (paragraph : str) :
  contains Editor.rain_phrase paragraph = false ->
  contains Editor.silhouette_phrase paragraph = false ->
  Editor._enhance_paragraph lower paragraph = paragraph.
Proof.
  intros Hrain Hsilhouette. unfold Editor._enhance_paragraph.
  destruct (Editor.rain_gate lower paragraph),
    (Editor.silhouette_gate paragraph);
    first [reflexivity | apply replace_absent; assumption].
Qed.

Lemma enhance_prose_plain (lower : str -> str) (content : str) :
  forallb (fun p => negb (contains Editor.rain_phrase p)
                    && negb (contains Editor.silhouette_phrase p))
    (split content (nl ++ nl)) = true ->
  Editor._enhance_prose lower content
  = join (nl ++ nl)
      (filter (fun p => truthy (strip p) = true) (split content (nl ++ nl))).
Proof.
  unfold Editor._enhance_prose. intros Hplain. f_equal.
  induction (split content (nl ++ nl)) as [|p ps IH]; [reflexivity|].
  cbn [forallb] in Hplain.
  apply andb_true_iff in Hplain as [[Hr Hs]%andb_true_iff Hps].
  apply negb_true_iff in Hr, Hs.
  cbn [flat_map]. rewrite (IH Hps), filter_cons.
  rewrite (enhance_paragraph_plain lower p Hr Hs).
  destruct (truthy (strip p)); [rewrite decide_True by reflexivity
                               | rewrite decide_False by discriminate];
    reflexivity.
Qed.

(** ** The pipeline *)

(** C8.  From the empty brief both extractions return the feature set
    with every field empty, and the plan, the rule-based draft written
    from it and the edited draft are non-empty texts: the draft is the
    three generic fragments and the Editor leaves it as it is. *)
Theorem empty_brief_pipeline (lower : str -> str) :
  lower [] = [] ->
  let plan := Planner.plan_scene lower [] in
  let draft := Writer._write_scene_fallback lower [] plan in
  let final := Editor.edit_scene lower draft [] plan in
  Planner._extract_elements lower []
  = {| Planner.characters := []; Planner.setting := []; Planner.mood := [];
       Planner.conflict_type := []; Planner.time_period := [];
       Planner.weather := []; Planner.action := [] |}
  /\ Writer._analyze_brief lower []
     = {| Writer.setting := []; Writer.characters := []; Writer.mood := [];
          Writer.time := []; Writer.weather := []; Writer.action := [] |}
  /\ plan <> []
  /\ draft = join nl ([Writer.generic_opening] ++ Writer.generic_interaction
                      ++ [Writer.generic_closing])
  /\ draft <> []
  /\ final = draft
  /\ final <> [].
Proof.
  intros Hlower. cbv zeta.
  assert (Hplanner : Planner._extract_elements lower []
    = {| Planner.characters := []; Planner.setting := []; Planner.mood := [];
         Planner.conflict_type := []; Planner.time_period := [];
         Planner.weather := []; Planner.action := [] |}).
  { unfold Planner._extract_elements. rewrite Hlower. vm_compute. reflexivity. }
  assert (Hwriter : Writer._analyze_brief lower []
    = {| Writer.setting := []; Writer.characters := []; Writer.mood := [];
         Writer.time := []; Writer.weather := []; Writer.action := [] |}).
  { unfold Writer._analyze_brief. rewrite Hlower. vm_compute. reflexivity. }
  unfold Planner.plan_scene, Writer._write_scene_fallback.
  rewrite Hplanner, Hwriter.
  assert (Hdraft :
    Writer._generate_scene_content
      {| Writer.setting := []; Writer.characters := []; Writer.mood := [];
         Writer.time := []; Writer.weather := []; Writer.action := [] |}
      (Planner._create_scene_structure
         {| Planner.characters := []; Planner.setting := []; Planner.mood := [];
            Planner.conflict_type := []; Planner.time_period := [];
            Planner.weather := []; Planner.action := [] |} []) []
    = join nl ([Writer.generic_opening] ++ Writer.generic_interaction
               ++ [Writer.generic_closing]))
    by (vm_compute; reflexivity).
  rewrite Hdraft.
  assert (Hfinal : forall plan,
    Editor.edit_scene lower
      (join nl ([Writer.generic_opening] ++ Writer.generic_interaction
                ++ [Writer.generic_closing])) [] plan
    = join nl ([Writer.generic_opening] ++ Writer.generic_interaction
               ++ [Writer.generic_closing])).
  { intros plan. unfold Editor.edit_scene.
    rewrite enhance_prose_plain by (vm_compute; reflexivity).
    vm_compute. reflexivity. }
  rewrite Hfinal.
  repeat split; try reflexivity;
    intros Hempty; vm_compute in Hempty; discriminate Hempty.
Qed.

Lemma empty_brief_pipeline_witness :
  Editor.edit_scene lower_latin1
    (Writer._write_scene_fallback lower_latin1 []
       (Planner.plan_scene lower_latin1 []))
    [] (Planner.plan_scene lower_latin1 [])
  <> [].
Proof.
  assert (Hlower : lower_latin1 [] = []) by reflexivity.
  destruct (empty_brief_pipeline lower_latin1 Hlower)
    as (_ & _ & _ & _ & _ & _ & Hfinal).
  exact Hfinal.
Defined.

(** ** The literal corrections *)

(** Deleting [a] before [b]: the replacement of [a; b] by [b]. *)
Section DeleteBefore.
Variables a b : N.
Hypothesis Hab : a <> b.
Implicit Types s p : str.

Local Abbreviation D := (replace_go [a; b] [b] O).

Lemma delete_step c t :
  D (c :: t) = if startswith (c :: t) [a; b] then D t else c :: D t.
Proof.
  cbn [replace_go]. destruct (startswith (c :: t) [a; b]) eqn:E; [|reflexivity].
  cbn in E. destruct (bool_decide (a = c)); [|discriminate E].
  destruct t as [|d t']; [discriminate E|].
  destruct (bool_decide_reflect (b = d)) as [<-|]; [|discriminate E].
  cbn. rewrite bool_decide_eq_false_2 by exact Hab. reflexivity.
Qed.

Lemma delete_head s x :
  head (D s) = Some x ->
  head s = Some x \/ (x = b /\ startswith s [a; b] = true).
Proof.
  destruct s as [|c t]; [discriminate|].
  rewrite delete_step. destruct (startswith (c :: t) [a; b]) eqn:E.
  - intros H. right. split; [|reflexivity].
    cbn in E. destruct (bool_decide (a = c)); [|discriminate E].
    destruct t as [|d t']; [discriminate E|].
    destruct (bool_decide_reflect (b = d)) as [<-|]; [|discriminate E].
    rewrite delete_step in H. cbn in H.
    rewrite bool_decide_eq_false_2 in H by exact Hab. cbn in H. congruence.
  - intros H. left. exact H.
Qed.

Lemma delete_startswith s p :
  b ∉ p -> startswith (D s) p = true -> startswith s p = true.
Proof.
  revert p. induction s as [|c t IH]; intros [|x p] Hp; try reflexivity.
  - discriminate.
  - apply not_elem_of_cons in Hp as [Hx Hp].
    rewrite delete_step. destruct (startswith (c :: t) [a; b]) eqn:E.
    + intros H. exfalso.
      cbn in E. destruct (bool_decide (a = c)); [|discriminate E].
      destruct t as [|d t']; [discriminate E|].
      destruct (bool_decide_reflect (b = d)) as [<-|]; [|discriminate E].
      rewrite delete_step in H. cbn in H.
      rewrite bool_decide_eq_false_2 in H by exact Hab.
      destruct (bool_decide_reflect (x = b)) as [->|]; [now elim Hx|discriminate H].
    + cbn. destruct (bool_decide (x = c)); [apply IH, Hp | discriminate].
Qed.

(** A pattern without [b] that does not occur before the deletion does
    not occur after it. *)
Lemma delete_keeps_absent s p :
  b ∉ p -> contains p s = false -> contains p (D s) = false.
Proof.
  intros Hp. induction s as [|c t IH]; [intros H; exact H|].
  intros H. pose proof H as Hs.
  rewrite contains_cons in H. apply orb_false_elim in H as [H1 H2].
  destruct (contains p (D (c :: t))) eqn:E; [|reflexivity].
  rewrite delete_step in E. destruct (startswith (c :: t) [a; b]) eqn:Em.
  - rewrite (IH H2) in E. discriminate E.
  - rewrite contains_cons, (IH H2), orb_false_r in E.
    assert (Hd : startswith (D (c :: t)) p = true)
      by (rewrite delete_step, Em; exact E).
    apply delete_startswith in Hd; [congruence | exact Hp].
Qed.

End DeleteBefore.

(** Three newlines to two: the last of the four replacements. *)
Section TripleNewline.
Implicit Types s p : str.

Local Abbreviation T := (replace_go [10; 10; 10] [10; 10] O).

Lemma triple_step c t :
  T (c :: t)
  = if startswith (c :: t) [10; 10; 10]
    then 10 :: 10 :: T (drop 2 t)
    else c :: T t.
Proof.
  cbn [replace_go]. destruct (startswith (c :: t) [10; 10; 10]) eqn:E;
    [|reflexivity].
  cbn in E. destruct (bool_decide (10 = c)); [|discriminate E].
  destruct t as [|d [|e t']]; try discriminate E;
    [destruct (bool_decide (10 = d)); discriminate E|].
  reflexivity.
Qed.

Lemma startswith3_cons c s :
  startswith (c :: s) [10; 10; 10] = bool_decide (10 = c) && startswith s [10; 10].
Proof. cbn. destruct (bool_decide (10 = c)); reflexivity. Qed.

Lemma startswith2_cons c s :
  startswith (c :: s) [10; 10]
  = bool_decide (10 = c) && bool_decide (head s = Some 10).
Proof.
  cbn. destruct (bool_decide (10 = c)); [|reflexivity].
  destruct s as [|d r]; [reflexivity|]. cbn.
  destruct (bool_decide_reflect (10 = d)) as [<-|Hd].
  - rewrite bool_decide_eq_true_2 by reflexivity. reflexivity.
  - rewrite bool_decide_eq_false_2 by congruence. reflexivity.
Qed.

Lemma startswith2_head s :
  startswith s [10; 10] = true -> head s = Some 10.
Proof.
  destruct s as [|c t]; [discriminate|]. cbn.
  destruct (bool_decide_reflect (10 = c)) as [<-|]; [reflexivity|discriminate].
Qed.

Lemma triple_head s : head (T s) = head s.
Proof.
  destruct s as [|c t]; [reflexivity|].
  rewrite triple_step, startswith3_cons.
  destruct (bool_decide_reflect (10 = c)) as [<-|]; [|reflexivity].
  destruct (startswith t [10; 10]); reflexivity.
Qed.

Lemma triple_startswith s p :
  10 ∉ p -> startswith (T s) p = true -> startswith s p = true.
Proof.
  revert p. induction s as [|c t IH]; intros [|x p] Hp; try reflexivity.
  - discriminate.
  - apply not_elem_of_cons in Hp as [Hx Hp].
    rewrite triple_step, startswith3_cons.
    destruct (bool_decide_reflect (10 = c)) as [<-|Hc]; cbn [andb].
    + destruct (startswith t [10; 10]); cbn;
        rewrite bool_decide_eq_false_2 by (intros ->; now apply Hx); discriminate.
    + cbn. destruct (bool_decide (x = c)); [apply IH, Hp | discriminate].
Qed.

Lemma contains_tail p c s : contains p (c :: s) = false -> contains p s = false.
Proof. rewrite contains_cons. intros [_ H]%orb_false_elim. exact H. Qed.

Lemma contains_drop p n s : contains p s = false -> contains p (drop n s) = false.
Proof.
  revert s. induction n as [|n IH]; intros s H; [exact H|].
  destruct s as [|c t]; [exact H|]. apply IH, (contains_tail _ c), H.
Qed.

(** A pattern without a newline that does not occur before the
    replacement does not occur after it. *)
Lemma triple_keeps_absent p :
  10 ∉ p -> forall n s, (length s <= n)%nat ->
  contains p s = false -> contains p (T s) = false.
Proof.
  intros Hp. induction n as [|n IH]; intros [|c t] Hlen H;
    try exact H; [cbn in Hlen; lia|].
  cbn in Hlen.
  destruct (contains p (T (c :: t))) eqn:E; [|reflexivity].
  assert (Hsw : startswith (T (c :: t)) p = false).
  { destruct (startswith (T (c :: t)) p) eqn:Es; [|reflexivity].
    apply triple_startswith in Es; [|exact Hp].
    rewrite contains_cons, Es in H. discriminate H. }
  rewrite triple_step in E, Hsw.
  destruct (startswith (c :: t) [10; 10; 10]).
  - rewrite contains_cons, Hsw in E. cbn [orb] in E.
    rewrite contains_cons in E.
    rewrite (IH (drop 2 t)) in E.
    + rewrite orb_false_r in E.
      destruct p as [|x p']; [rewrite contains_nil_l in H; discriminate H|].
      apply not_elem_of_cons in Hp as [Hx _].
      cbn in E. rewrite bool_decide_eq_false_2 in E by (intros ->; now apply Hx).
      discriminate E.
    + rewrite length_drop. lia.
    + apply contains_drop, (contains_tail _ c), H.
  - rewrite contains_cons, Hsw in E. cbn [orb] in E.
    rewrite (IH t) in E; [discriminate E | lia | apply (contains_tail _ c), H].
Qed.

Lemma triple_two_newlines s :
  startswith (T s) [10; 10] = true -> startswith s [10; 10] = true.
Proof.
  destruct s as [|c t]; [discriminate|].
  rewrite triple_step, startswith3_cons, !startswith2_cons.
  destruct (bool_decide_reflect (10 = c)) as [<-|Hc]; cbn [andb].
  - destruct (startswith t [10; 10]) eqn:Et.
    + intros _. destruct t as [|d r]; [discriminate Et|].
      rewrite startswith2_cons in Et.
      destruct (bool_decide_reflect (10 = d)) as [<-|]; [|discriminate Et].
      reflexivity.
    + rewrite startswith2_cons, triple_head.
      intros [_ H]%andb_true_iff. exact H.
  - destruct (startswith t [10; 10]); cbn;
      rewrite ?(bool_decide_eq_false_2 _ Hc); discriminate.
Qed.

(** Where no four newlines are adjacent, no three are left. *)
Lemma triple_clears :
  forall n s, (length s <= n)%nat ->
  contains [10; 10; 10; 10] s = false -> contains [10; 10; 10] (T s) = false.
Proof.
  induction n as [|n IH]; intros [|c t] Hlen H; try reflexivity;
    [cbn in Hlen; lia|].
  cbn in Hlen. rewrite triple_step.
  destruct (startswith (c :: t) [10; 10; 10]) eqn:Em.
  - (* the run is exactly three long *)
    assert (Hnext : head (T (drop 2 t)) <> Some 10).
    { rewrite triple_head. intros Hh.
      rewrite contains_cons in H. apply orb_false_elim in H as [H _].
      cbn in Em, H.
      destruct (bool_decide (10 = c)); [|discriminate Em].
      destruct t as [|d [|e t']]; try discriminate Em;
        [destruct (bool_decide (10 = d)); discriminate Em|].
      destruct (bool_decide (10 = d)); [|discriminate Em].
      destruct (bool_decide (10 = e)); [|discriminate Em].
      cbn in Hh. destruct t' as [|f t'']; [discriminate Hh|].
      injection Hh as ->. discriminate H. }
    rewrite !contains_cons, !startswith3_cons, !startswith2_cons.
    rewrite (bool_decide_eq_false_2 _ Hnext), !andb_false_r. cbn [orb].
    destruct (startswith (T (drop 2 t)) [10; 10]) eqn:E2;
      [apply startswith2_head in E2; contradiction|].
    rewrite andb_false_r. cbn [orb].
    apply IH; [rewrite length_drop; lia|].
    apply contains_drop, (contains_tail _ c), H.
  - rewrite contains_cons, (IH t), orb_false_r;
      [|lia|apply (contains_tail _ c), H].
    rewrite startswith3_cons in Em |- *.
    destruct (bool_decide (10 = c)); [|reflexivity]. cbn [andb] in Em |- *.
    destruct (startswith (T t) [10; 10]) eqn:E; [|reflexivity].
    apply triple_two_newlines in E. congruence.
Qed.

End TripleNewline.

Lemma style_corrections_unfold (s : str) :
  Editor._apply_style_corrections s
  = replace_go [10; 10; 10] [10; 10] O
      (replace_go [32; 32] [32] O
         (replace_go [32; 46] [46] O
            (replace_go [32; 44] [44] O s))).
Proof. reflexivity. Qed.

Ltac absent_char :=
  repeat (apply not_elem_of_cons; split; [discriminate|]); apply not_elem_of_nil.

(** C5, as stated, fails: of three spaces one pass leaves two, and a
    second pass one. *)
Lemma style_corrections_not_idempotent :
  Editor._apply_style_corrections (lit "   ") = lit "  "
  /\ Editor._apply_style_corrections
       (Editor._apply_style_corrections (lit "   ")) = lit " "
  /\ Editor._apply_style_corrections
       (Editor._apply_style_corrections (lit "   "))
     <> Editor._apply_style_corrections (lit "   ").
Proof.
  repeat split; try (vm_compute; reflexivity).
  intros H. vm_compute in H. discriminate H.
Qed.

(** ** The generation service *)

Section ServiceRun.
Variable self : LLMEngine.t.

Lemma ensure_model_loaded_ok (names : list str) (any : option str)
    (warm_up : Net.body) (rest : list Net.outcome) (log : list Net.request) :
  existsb (fun name => contains (LLMEngine.model self) name) names = true ->
  LLMEngine._ensure_model_loaded self
    {| pending := Response 200 (Json names any) :: Response 200 warm_up :: rest;
       sent := log |}
  = (true,
     {| pending := rest;
        sent := (log ++ [GET_tags 10])
                ++ [POST_generate (LLMEngine.model self) (lit "Olá") 5 30] |}).
Proof.
  intros Hfound.
  unfold LLMEngine._ensure_model_loaded, bind, http, ret.
  cbn [pending sent]. change (200 =? 200)%Z with true. cbn [negb].
  rewrite Hfound. cbn [negb pending sent]. reflexivity.
Qed.

(** A reply of at most fifty characters after trimming is dropped for
    the engine's own fixed text; the prompt is sent once. *)
Lemma generate_short_reply (prompt : str) (max_tokens timeout : Z)
    (names models : list str) (any reply : option str)
    (warm_up : Net.body) (rest : list Net.outcome) (log : list Net.request) :
  existsb (fun name => contains (LLMEngine.model self) name) names = true ->
  (len (strip (default [] reply)) <= 50)%Z ->
  LLMEngine.generate self prompt max_tokens timeout
    {| pending := Response 200 (Json names any) :: Response 200 warm_up
                  :: Response 200 (Json models reply) :: rest;
       sent := log |}
  = (LLMEngine._fallback_response self prompt,
     {| pending := rest;
        sent := log
                ++ [ GET_tags 10;
                     POST_generate (LLMEngine.model self) (lit "Olá") 5 30;
                     POST_generate (LLMEngine.model self) prompt max_tokens
                       timeout ] |}).
Proof.
  intros Hfound Hshort.
  unfold LLMEngine.generate, bind.
  rewrite (ensure_model_loaded_ok _ _ _ _ _ Hfound).
  cbn [negb]. unfold http, ret. cbn [pending sent].
  change (200 =? 200)%Z with true. cbv iota.
  replace (50 <? len (strip (default [] reply)))%Z with false
    by (symmetry; apply Z.ltb_ge; exact Hshort).
  rewrite andb_false_r, <- !app_assoc. reflexivity.
Qed.

End ServiceRun.

Section JoinFacts.
Implicit Types s sep : str.

Lemma lstrip_id s c : head s = Some c -> isspace c = false -> lstrip s = s.
Proof.
  destruct s as [|a t]; [discriminate|].
  intros [= ->] Hc. cbn. rewrite Hc. reflexivity.
Qed.

Lemma rstrip_id s d : last s = Some d -> isspace d = false -> rstrip s = s.
Proof.
  intros Hlast Hd. induction s as [|a t IH]; [discriminate|].
  destruct t as [|b r].
  - injection Hlast as ->. cbn. rewrite Hd. reflexivity.
  - change (rstrip (a :: b :: r))
      with (match rstrip (b :: r) with
            | [] => if isspace a then [] else [a]
            | x :: xs => a :: x :: xs
            end).
    rewrite IH by exact Hlast. reflexivity.
Qed.

(** A text that begins and ends with a non-blank is its own [strip]. *)
Lemma strip_id s c d :
  head s = Some c -> isspace c = false ->
  last s = Some d -> isspace d = false -> strip s = s.
Proof.
  intros Hc Hcs Hd Hds. unfold strip.
  rewrite (lstrip_id s c Hc Hcs). apply (rstrip_id s d Hd Hds).
Qed.

Lemma join_cons sep p q (ps : list str) :
  join sep (p :: q :: ps) = p ++ sep ++ join sep (q :: ps).
Proof. reflexivity. Qed.

Lemma head_join sep c p (ps : list str) :
  head (join sep ((c :: p) :: ps)) = Some c.
Proof. destruct ps; reflexivity. Qed.

Lemma last_join sep (ps : list str) p d :
  last p = Some d -> last (join sep (ps ++ [p])) = Some d.
Proof.
  intros Hd. induction ps as [|q qs IH]; [exact Hd|].
  destruct qs as [|r rs].
  - cbn [app]. rewrite join_cons. cbn [join].
    rewrite !last_app, Hd. reflexivity.
  - change ((q :: r :: rs) ++ [p]) with (q :: r :: (rs ++ [p])).
    rewrite join_cons, !last_app.
    change (r :: rs ++ [p]) with ((r :: rs) ++ [p]). rewrite IH. reflexivity.
Qed.

Lemma length_join_elem sep (ps : list str) p :
  p ∈ ps -> (length p <= length (join sep ps))%nat.
Proof.
  induction ps as [|q qs IH]; [intros H; inversion H|].
  intros [->|Hin]%elem_of_cons.
  - destruct qs; [reflexivity|]. rewrite join_cons, length_app. lia.
  - destruct qs as [|r rs]; [inversion Hin|].
    rewrite join_cons, !length_app. specialize (IH Hin). lia.
Qed.

End JoinFacts.

(** The engine's fixed text begins with a bracket, ends with an
    asterisk and is longer than fifty characters. *)
Lemma fallback_response_shape (self : LLMEngine.t) (prompt : str) :
  head (LLMEngine._fallback_response self prompt) = Some 91
  /\ last (LLMEngine._fallback_response self prompt) = Some 42
  /\ (50 < len (LLMEngine._fallback_response self prompt))%Z.
Proof.
  unfold LLMEngine._fallback_response.
  match goal with
  | |- context [join nl (?first :: ?others)] =>
      set (rest := others);
      replace first with (91 :: lit "Gerado com fallback - Ollama indisponível]")
        by (vm_compute; reflexivity)
  end.
  split; [apply head_join|]. split.
  - subst rest.
    match goal with
    | |- context [join nl [?l1; ?l2; ?l3; ?l4; ?l5; ?l6; ?l7; ?l8; ?l9; ?l10;
                           ?l11; ?l12; ?l13; ?l14; ?l15; ?l16; ?l17]] =>
        change [l1; l2; l3; l4; l5; l6; l7; l8; l9; l10; l11; l12; l13; l14;
                l15; l16; l17]
          with ([l1; l2; l3; l4; l5; l6; l7; l8; l9; l10; l11; l12; l13; l14;
                 l15; l16] ++ [l17])
    end.
    apply last_join. rewrite !last_app.
    replace (last (lit " está disponível]*")) with (Some 42)
      by (vm_compute; reflexivity).
    reflexivity.
  - unfold len.
    pose proof (length_join_elem nl
      ((91 :: lit "Gerado com fallback - Ollama indisponível]") :: rest)
      (lit "O ambiente estava carregado de expectativa. A atmosfera densa prenunciava que algo importante estava prestes a acontecer.")) as Hlen.
    assert (Hline : (50 < length (lit "O ambiente estava carregado de expectativa. A atmosfera densa prenunciava que algo importante estava prestes a acontecer."))%nat)
      by (vm_compute; lia).
    assert (Hin : lit "O ambiente estava carregado de expectativa. A atmosfera densa prenunciava que algo importante estava prestes a acontecer."
                  ∈ (91 :: lit "Gerado com fallback - Ollama indisponível]") :: rest).
    { subst rest. do 4 apply list_elem_of_further. apply list_elem_of_here. }
    specialize (Hlen Hin). lia.
Qed.

Lemma fallback_response_strip (self : LLMEngine.t) (prompt : str) :
  strip (LLMEngine._fallback_response self prompt)
  = LLMEngine._fallback_response self prompt.
Proof.
  destruct (fallback_response_shape self prompt) as (Hhead & Hlast & _).
  apply (strip_id _ 91 42); [exact Hhead | reflexivity | exact Hlast | reflexivity].
Qed.

(** The rule-based scene never begins with a bracket: its first
    fragment is one of the seven openings. *)
Lemma fallback_scene_head (lower : str -> str) (brief scene_plan : str) :
  exists c, head (Writer._write_scene_fallback lower brief scene_plan) = Some c
            /\ c <> 91.
Proof.
  unfold Writer._write_scene_fallback, Writer._generate_scene_content,
    Writer.content_parts.
  assert (Hopening : exists c x others,
    Writer.opening (Writer._analyze_brief lower brief) = (c :: x) :: others
    /\ c <> 91).
  { unfold Writer.opening, Writer._analyze_brief.
    cbn [Writer.setting Writer.weather].
    split_keywords lower brief; cbv [orb andb];
      eexists _, _, _; (split; [vm_compute; reflexivity | discriminate]). }
  destruct Hopening as (c & x & others & -> & Hc).
  exists c. split; [|exact Hc].
  rewrite <- app_comm_cons. apply head_join.
Qed.

(** C1, what the code does.  When the service lists the model, answers
    the warm-up and then returns a successful reply whose trimmed text
    has at most fifty characters (none at all included), the Writer in
    generation-service mode returns the engine's own fixed text for the
    prompt.  This is never the rule-based scene, which the Writer's own
    test of the length would return: the engine has replaced the short
    reply before the Writer sees it.  The prompt was sent once. *)
Theorem short_reply_returns_engine_text (lower : str -> str) (self : Writer.t)
    (brief scene_plan : str) (names models : list str)
    (any reply : option str) (warm_up : Net.body)
    (rest : list Net.outcome) (log : list Net.request) :
  Writer.use_fallback self = false ->
  existsb (fun name => contains (LLMEngine.model (Writer.llm self)) name) names
  = true ->
  (len (strip (default [] reply)) <= 50)%Z ->
  let prompt := Writer.build_prompt self brief scene_plan in
  let run :=
    Writer.write_scene lower self brief scene_plan
      {| pending := Response 200 (Json names any) :: Response 200 warm_up
                    :: Response 200 (Json models reply) :: rest;
         sent := log |} in
  run = (LLMEngine._fallback_response (Writer.llm self) prompt,
         {| pending := rest;
            sent := log
                    ++ [ GET_tags 10;
                         POST_generate (LLMEngine.model (Writer.llm self))
                           (lit "Olá") 5 30;
                         POST_generate (LLMEngine.model (Writer.llm self))
                           prompt 800 120 ] |})
  /\ fst run <> Writer._write_scene_fallback lower brief scene_plan.
Proof.
  intros Hmode Hfound Hshort prompt run.
  assert (Hrun : run
    = (LLMEngine._fallback_response (Writer.llm self) prompt,
       {| pending := rest;
          sent := log
                  ++ [ GET_tags 10;
                       POST_generate (LLMEngine.model (Writer.llm self))
                         (lit "Olá") 5 30;
                       POST_generate (LLMEngine.model (Writer.llm self))
                         prompt 800 120 ] |})).
  { subst run. unfold Writer.write_scene. rewrite Hmode.
    unfold Writer._write_scene_ai, bind. fold prompt.
    rewrite (generate_short_reply _ _ _ _ _ _ _ _ _ _ _ Hfound Hshort).
    rewrite fallback_response_strip.
    destruct (fallback_response_shape (Writer.llm self) prompt)
      as (Hhead & _ & Hlen).
    replace (len (LLMEngine._fallback_response (Writer.llm self) prompt) <? 50)%Z
      with false by (symmetry; apply Z.ltb_ge; lia).
    destruct (LLMEngine._fallback_response (Writer.llm self) prompt);
      [discriminate Hhead | reflexivity]. }
  split; [exact Hrun|].
  rewrite Hrun. cbn [fst]. intros Hsame.
  destruct (fallback_scene_head lower brief scene_plan) as (c & Hc & Hne).
  destruct (fallback_response_shape (Writer.llm self) prompt) as (Hhead & _).
  rewrite Hsame, Hc in Hhead. congruence.
Qed.

Lemma short_reply_returns_engine_text_witness :
  fst (Writer.write_scene lower_latin1 example_writer scenario_brief
         (Planner.plan_scene lower_latin1 scenario_brief) short_reply_service)
  = LLMEngine._fallback_response (Writer.llm example_writer)
      (Writer.build_prompt example_writer scenario_brief
         (Planner.plan_scene lower_latin1 scenario_brief)).
Proof.
  assert (Hmode : Writer.use_fallback example_writer = false) by reflexivity.
  assert (Hfound :
    existsb (fun name => contains (LLMEngine.model (Writer.llm example_writer)) name)
      [lit "llama3.1:latest"] = true) by (vm_compute; reflexivity).
  assert (Hshort : (len (strip (default [] (Some (lit "  Era noite.  ")))) <= 50)%Z)
    by (vm_compute; discriminate).
  destruct (short_reply_returns_engine_text lower_latin1 example_writer
              scenario_brief (Planner.plan_scene lower_latin1 scenario_brief)
              [lit "llama3.1:latest"] [] None (Some (lit "  Era noite.  "))
              (Json [] (Some (lit "Olá!"))) [] [] Hmode Hfound Hshort)
    as [Hrun _].
  unfold short_reply_service. rewrite Hrun. reflexivity.
Defined.

(** C1 on the scenario brief: a reply of ten characters after trimming
    makes the Writer return the engine's fixed text, which is not the
    rule-based scene of the brief. *)
Lemma short_reply_not_rule_based :
  len (strip (lit "  Era noite.  ")) = 10%Z
  /\ fst (Writer.write_scene lower_latin1 example_writer scenario_brief
            (Planner.plan_scene lower_latin1 scenario_brief)
            short_reply_service)
     <> Writer._write_scene_fallback lower_latin1 scenario_brief
          (Planner.plan_scene lower_latin1 scenario_brief)
  /\ head (fst (Writer.write_scene lower_latin1 example_writer scenario_brief
                  (Planner.plan_scene lower_latin1 scenario_brief)
                  short_reply_service))
     = head (lit "[Gerado com fallback - Ollama indisponível]").
Proof.
  split; [vm_compute; reflexivity|]. split.
  - intros Hsame. apply (f_equal head) in Hsame.
    vm_compute in Hsame. discriminate Hsame.
  - vm_compute. reflexivity.
Qed.

(** * Further properties *)

(** ** The generation client on an arbitrary service *)

Section GenerateRun.
Variable self : LLMEngine.t.
Variables (prompt : str) (max_tokens timeout : Z).

Lemma strip_strip (s : str) : strip (strip s) = strip s.
Proof.
  destruct (strip s) as [|c t] eqn:E; [reflexivity|]. rewrite <- E.
  destruct (last (strip s)) as [d|] eqn:Ed.
  - apply (strip_id _ c d).
    + rewrite E. reflexivity.
    + apply (strip_head s). rewrite E. reflexivity.
    + exact Ed.
    + apply (strip_last s), Ed.
  - rewrite E in Ed. apply last_None in Ed. discriminate Ed.
Qed.

Ltac run_step :=
  match goal with
  | |- context [match ?o with
                | Response _ _ => _ | Timeout => _
                | ConnectionError => _ | OtherError => _ end] => destruct o
  | |- context [match ?b with NotJson => _ | Json _ _ => _ end] => destruct b
  | |- context [if ?c then _ else _] => destruct c eqn:?
  | |- context [match ?p with [] => _ | _ :: _ => _ end] => destruct p
  end; cbn [negb pending sent].

Lemma generate_run (service : net) :
  let run := LLMEngine.generate self prompt max_tokens timeout service in
  let requests :=
    [ GET_tags 10;
      POST_generate (LLMEngine.model self) (lit "Olá") 5 30;
      POST_generate (LLMEngine.model self) prompt max_tokens timeout ] in
  (fst run = LLMEngine._fallback_response self prompt
   \/ exists reply,
        fst run = strip reply /\ (50 < len (fst run))%Z
        /\ snd run = {| pending := drop 3 (pending service);
                        sent := sent service ++ requests |})
  /\ exists k, (1 <= k <= 3)%nat
       /\ pending (snd run) = drop k (pending service)
       /\ sent (snd run) = sent service ++ take k requests.
Proof.
  destruct service as [script log]. cbv zeta.
  unfold LLMEngine.generate, LLMEngine._ensure_model_loaded, bind, http, ret.
  cbn [pending sent].
  repeat run_step; cbn [fst snd pending sent]; rewrite <- ?app_assoc;
    (split;
     [ first [ left; reflexivity
             | right; eexists; split; [reflexivity|]; split; [|reflexivity];
               match goal with
               | H : _ && _ = true |- _ =>
                   apply andb_true_iff in H as [_ H]; apply Z.ltb_lt in H; exact H
               end ]
     | first [ exists 1%nat; split; [lia|]; split; reflexivity
             | exists 2%nat; split; [lia|]; split; reflexivity
             | exists 3%nat; split; [lia|]; split; reflexivity ] ]).
Qed.

End GenerateRun.

(** [_fallback_response] is the fixed text around the brief it reads
    back from the prompt. *)
Lemma fallback_response_unfold (self : LLMEngine.t) (prompt : str) :
  LLMEngine._fallback_response self prompt
  = Canned.fallback_text (LLMEngine.model self) (Canned.quoted_brief prompt).
Proof.
  unfold LLMEngine._fallback_response, Canned.fallback_text, Canned.quoted_brief.
  cbv zeta. reflexivity.
Qed.

(** X1.  Whatever the service does, [generate] returns a trimmed text
    of more than fifty characters: the reply when it is long enough,
    the engine's fixed text on every other path. *)
Theorem generate_result_long (self : LLMEngine.t) (prompt : str)
    (max_tokens timeout : Z) (service : net) :
  let text := fst (LLMEngine.generate self prompt max_tokens timeout service) in
  (50 < len text)%Z /\ strip text = text
  /\ (text = LLMEngine._fallback_response self prompt
      \/ exists models reply rest any warm_up names,
           pending service
           = Response 200 (Json names any) :: Response 200 warm_up
             :: Response 200 (Json models (Some reply)) :: rest
           /\ text = strip reply).
Proof.
  cbv zeta.
  destruct (generate_run self prompt max_tokens timeout service)
    as [[Hfixed|(reply & Hreply & Hlen & _)] _].
  - rewrite Hfixed.
    destruct (fallback_response_shape self prompt) as (_ & _ & Hlen).
    split; [exact Hlen|]. split; [apply fallback_response_strip|]. left. reflexivity.
  - split; [exact Hlen|]. split; [rewrite Hreply; apply strip_strip|].
    clear Hreply Hlen reply.
    destruct service as [script log].
    unfold LLMEngine.generate, LLMEngine._ensure_model_loaded, bind, http, ret.
    cbn [pending sent].
    destruct script as [|[st1 b1| | |] script]; cbn [negb fst];
      try (left; reflexivity).
    destruct (st1 =? 200)%Z eqn:E1; cbn [negb fst]; [|left; reflexivity].
    destruct b1 as [|names any]; cbn [negb fst]; [left; reflexivity|].
    destruct (existsb _ names); cbn [negb fst]; [|left; reflexivity].
    destruct script as [|[st2 warm_up| | |] script]; cbn [negb fst pending sent];
      try (left; reflexivity).
    destruct (st2 =? 200)%Z eqn:E2; cbn [negb fst]; [|left; reflexivity].
    destruct script as [|[st3 b3| | |] rest];
      cbn [negb fst pending sent]; try (left; reflexivity).
    destruct (st3 =? 200)%Z eqn:E3; [|left; reflexivity].
    destruct b3 as [|models [reply|]]; [left; reflexivity| |].
    + change (default [] (Some reply)) with reply.
      destruct (truthy (strip reply) && (50 <? len (strip reply))%Z);
        [|left; reflexivity].
      right. apply Z.eqb_eq in E1, E2, E3. subst.
      exists models, reply, rest, any, warm_up, names. split; reflexivity.
    + replace (truthy (strip (default [] None))) with false by reflexivity.
      left. reflexivity.
Qed.

(** X2.  On every service [generate] sends between one and three
    requests, in this order: the model list, the warm-up, the prompt.
    Each consumes one answer; the prompt is sent at most once, and
    whenever the result is not the engine's fixed text all three were
    sent. *)
Theorem generate_requests (self : LLMEngine.t) (prompt : str)
    (max_tokens timeout : Z) (service : net) :
  let run := LLMEngine.generate self prompt max_tokens timeout service in
  let requests :=
    [ GET_tags 10;
      POST_generate (LLMEngine.model self) (lit "Olá") 5 30;
      POST_generate (LLMEngine.model self) prompt max_tokens timeout ] in
  (exists k, (1 <= k <= 3)%nat
     /\ pending (snd run) = drop k (pending service)
     /\ sent (snd run) = sent service ++ take k requests)
  /\ (fst run <> LLMEngine._fallback_response self prompt ->
      sent (snd run) = sent service ++ requests).
Proof.
  cbv zeta.
  destruct (generate_run self prompt max_tokens timeout service)
    as [[Hfixed|(reply & _ & _ & Hnet)] Hcount].
  - split; [exact Hcount|]. intros Hne. contradiction.
  - split; [exact Hcount|]. intros _. rewrite Hnet. reflexivity.
Qed.

Lemma write_scene_generation_run (lower : str -> str)
    (self : Writer.t) (brief scene_plan : str) (service : net) :
  Writer.use_fallback self = false ->
  Writer.write_scene lower self brief scene_plan service
  = LLMEngine.generate (Writer.llm self)
      (Writer.build_prompt self brief scene_plan) 800 120 service.
Proof.
  intros Hmode. unfold Writer.write_scene. rewrite Hmode.
  unfold Writer._write_scene_ai, bind.
  set (prompt := Writer.build_prompt self brief scene_plan).
  assert (Hlong : (50 < len (fst (LLMEngine.generate (Writer.llm self) prompt
                                   800 120 service)))%Z
                  /\ strip (fst (LLMEngine.generate (Writer.llm self) prompt
                                   800 120 service))
                     = fst (LLMEngine.generate (Writer.llm self) prompt
                              800 120 service)).
  { destruct (generate_run (Writer.llm self) prompt 800 120 service)
      as [[Hfixed|(reply & Hreply & Hlen & _)] _].
    - rewrite Hfixed.
      destruct (fallback_response_shape (Writer.llm self) prompt) as (_ & _ & Hlen).
      split; [exact Hlen | apply fallback_response_strip].
    - split; [exact Hlen | rewrite Hreply; apply strip_strip]. }
  destruct Hlong as [Hlen Hstrip].
  destruct (LLMEngine.generate (Writer.llm self) prompt 800 120 service)
    as [text service'].
  cbn [fst] in Hlen, Hstrip. rewrite Hstrip.
  replace (len text <? 50)%Z with false by (symmetry; apply Z.ltb_ge; lia).
  destruct text as [|c t]; [unfold len in Hlen; cbn in Hlen; lia | reflexivity].
Qed.

(** X3.  In generation-service mode [write_scene] returns what
    [generate] returned, on every service: the Writer's test of the
    length never fails, so neither it nor the [except] clause ever
    calls the rule-based fallback. *)
Theorem generation_mode_bypasses_rule_based (lower : str -> str)
    (self : Writer.t) (brief scene_plan : str) (service : net) :
  Writer.use_fallback self = false ->
  Writer.write_scene lower self brief scene_plan service
  = LLMEngine.generate (Writer.llm self)
      (Writer.build_prompt self brief scene_plan) 800 120 service.
Proof. apply write_scene_generation_run. Qed.

Lemma generation_mode_bypasses_rule_based_witness :
  Writer.write_scene lower_latin1 example_writer scenario_brief [] late_service
  = LLMEngine.generate example_engine
      (Writer.build_prompt example_writer scenario_brief []) 800 120 late_service.
Proof.
  apply (generation_mode_bypasses_rule_based lower_latin1 example_writer).
  reflexivity.
Defined.

(** ** Construction and the pipeline *)

(** The probe of [Writer.__init__]: one request, one answer consumed,
    and generation-service mode exactly on a 200. *)
Lemma init_run (project_data : gmap string str) (engine : LLMEngine.t)
    (service : net) :
  let available :=
    match head (pending service) with
    | Some (Response status_code _) => (status_code =? 200)%Z
    | _ => false
    end in
  Writer.use_fallback (fst (Writer.init project_data engine service))
  = negb available
  /\ Writer.llm (fst (Writer.init project_data engine service)) = engine
  /\ snd (Writer.init project_data engine service)
     = {| pending := tail (pending service);
          sent := sent service ++ [GET_tags 5] |}.
Proof.
  destruct service as [[|o script] log];
    unfold Writer.init, LLMEngine.is_available, bind, http, ret;
    cbn [pending sent head tail fst snd];
    [|destruct o]; repeat split; reflexivity.
Qed.

Lemma not_available (service : net) :
  (forall b, head (pending service) <> Some (Response 200 b)) ->
  match head (pending service) with
  | Some (Response status_code _) => (status_code =? 200)%Z
  | _ => false
  end = false.
Proof.
  intros Hdown. destruct (head (pending service)) as [[st b| | |]|];
    try reflexivity.
  destruct (Z.eqb_spec st 200) as [->|]; [|reflexivity].
  now elim (Hdown b).
Qed.

(** X4.  A Writer whose probe at construction did not get a 200 stays
    in fallback mode: every later [write_scene] returns the rule-based
    scene and leaves the service untouched, whatever the service would
    answer by then. *)
Theorem probe_failure_is_final (lower : str -> str)
    (project_data : gmap string str) (engine : LLMEngine.t) (service : net) :
  (forall b, head (pending service) <> Some (Response 200 b)) ->
  let writer := fst (Writer.init project_data engine service) in
  Writer.use_fallback writer = true
  /\ snd (Writer.init project_data engine service)
     = {| pending := tail (pending service);
          sent := sent service ++ [GET_tags 5] |}
  /\ forall brief scene_plan later,
       Writer.write_scene lower writer brief scene_plan later
       = (Writer._write_scene_fallback lower brief scene_plan, later).
Proof.
  intros Hdown writer.
  destruct (init_run project_data engine service) as (Hmode & _ & Hnet).
  cbv zeta in Hmode. rewrite (not_available service Hdown) in Hmode.
  split; [exact Hmode|]. split; [exact Hnet|].
  intros brief scene_plan later. unfold Writer.write_scene.
  subst writer. rewrite Hmode. reflexivity.
Qed.

Lemma probe_failure_is_final_witness :
  Writer.write_scene lower_latin1
    (fst (Writer.init ∅ example_engine late_service)) scenario_brief []
    (snd (Writer.init ∅ example_engine late_service))
  = (Writer._write_scene_fallback lower_latin1 scenario_brief [],
     snd (Writer.init ∅ example_engine late_service)).
Proof.
  assert (Hdown : forall b, head (pending late_service) <> Some (Response 200 b))
    by (intros b; discriminate).
  destruct (probe_failure_is_final lower_latin1 ∅ example_engine late_service
              Hdown) as (_ & _ & Hwrite).
  apply Hwrite.
Defined.

(** X5.  When the probe does not get a 200 and the console shows the
    brief, [process_brief] makes that one request and, if the console
    shows every later text too, returns the edited rule-based scene of
    the brief: the result depends neither on the project data nor on
    the engine.  When the console raises on the brief nothing is sent. *)
Theorem process_brief_offline (lower : str -> str)
    (prints : App.renderable -> bool) (engine : LLMEngine.t)
    (brief_text : str) (project_data : gmap string str) (service : net) :
  (forall b, head (pending service) <> Some (Response 200 b)) ->
  let scene_plan := Planner.plan_scene lower brief_text in
  let scene_content :=
    Writer._write_scene_fallback lower brief_text scene_plan in
  let final_content :=
    Editor.edit_scene lower scene_content brief_text scene_plan in
  App.process_brief lower prints engine brief_text project_data service
  = if prints (App.brief_panel brief_text)
    then (if forallb prints
               [ App.planning_notice; App.plan_panel scene_plan;
                 App.writing_notice; App.scene_panel scene_content;
                 App.editing_notice; App.final_panel final_content ]
          then Some final_content
          else None,
          {| pending := tail (pending service);
             sent := sent service ++ [GET_tags 5] |})
    else (None, service).
Proof.
  intros Hdown. cbv zeta. unfold App.process_brief.
  unfold App.console_print at 1.
  destruct (prints (App.brief_panel brief_text)); [|reflexivity].
  unfold bind at 1.
  destruct (init_run project_data engine service) as (Hmode & _ & Hnet).
  cbv zeta in Hmode. rewrite (not_available service Hdown) in Hmode.
  destruct (Writer.init project_data engine service) as [writer service'].
  cbn [fst snd] in Hmode, Hnet. subst service'.
  unfold App.console_print, bind, Writer.write_scene. rewrite Hmode.
  cbn [negb forallb]. unfold ret. cbv beta iota.
  repeat match goal with
         | |- context [prints ?r] => destruct (prints r)
         end;
    reflexivity.
Qed.

Lemma process_brief_offline_witness :
  App.process_brief lower_latin1 plain_console example_engine scenario_brief
    {["style_guide" := lit "Frases curtas."]} late_service
  = (Some (Editor.edit_scene lower_latin1
             (Writer._write_scene_fallback lower_latin1 scenario_brief
                (Planner.plan_scene lower_latin1 scenario_brief))
             scenario_brief (Planner.plan_scene lower_latin1 scenario_brief)),
     {| pending := [ Response 200 (Json [lit "llama3.1:latest"] None) ];
        sent := [GET_tags 5] |})
  /\ App.process_brief lower_latin1 strict_console example_engine (lit "[/]")
       ∅ late_service
     = (None, late_service).
Proof.
  split.
  - rewrite (process_brief_offline lower_latin1 plain_console example_engine
               scenario_brief {["style_guide" := lit "Frases curtas."]}
               late_service)
      by (intros b; discriminate).
    reflexivity.
  - rewrite (process_brief_offline lower_latin1 strict_console example_engine
               (lit "[/]") ∅ late_service)
      by (intros b; discriminate).
    reflexivity.
Defined.

(** X6.  On every service and console: when the console raises on the
    brief, [process_brief] sends nothing; otherwise it sends the probe
    and then at most the three requests of one generation, so a brief
    costs between one and four requests, each consuming one answer, and
    the prompt is sent at most once. *)
Theorem process_brief_requests (lower : str -> str)
    (prints : App.renderable -> bool) (engine : LLMEngine.t)
    (brief_text : str) (project_data : gmap string str) (service : net) :
  let run :=
    App.process_brief lower prints engine brief_text project_data service in
  if prints (App.brief_panel brief_text)
  then exists (k : nat) (prompt : str),
         (k <= 3)%nat
         /\ pending (snd run) = drop (S k) (pending service)
         /\ sent (snd run)
            = sent service
              ++ GET_tags 5
                 :: take k [ GET_tags 10;
                             POST_generate (LLMEngine.model engine) (lit "Olá") 5 30;
                             POST_generate (LLMEngine.model engine) prompt 800 120 ]
  else run = (None, service).
Proof.
  cbv zeta. unfold App.process_brief, App.console_print, bind.
  destruct (prints (App.brief_panel brief_text)); [|reflexivity].
  destruct (init_run project_data engine service) as (Hmode & Hengine & Hnet).
  destruct (Writer.init project_data engine service) as [writer service'].
  cbv beta iota.
  cbn [fst snd] in Hmode, Hengine, Hnet. subst service'.
  assert (Hprobe : exists (k : nat) (prompt : str),
    (k <= 3)%nat
    /\ tail (pending service) = drop (S k) (pending service)
    /\ sent service ++ [GET_tags 5]
       = sent service
         ++ GET_tags 5
            :: take k [ GET_tags 10;
                        POST_generate (LLMEngine.model engine) (lit "Olá") 5 30;
                        POST_generate (LLMEngine.model engine) prompt 800 120 ]).
  { exists 0%nat, []. cbn [take].
    destruct (pending service); repeat split; try reflexivity; lia. }
  destruct (prints App.planning_notice); [|exact Hprobe].
  destruct (prints (App.plan_panel _)); [|exact Hprobe].
  destruct (prints App.writing_notice); [|exact Hprobe].
  destruct (Writer.use_fallback writer) eqn:Hfallback.
  - unfold Writer.write_scene. rewrite Hfallback.
    unfold ret. cbv beta iota.
    repeat match goal with
           | |- context [prints ?r] => destruct (prints r)
           end;
      exact Hprobe.
  - rewrite (write_scene_generation_run lower writer _ _ _ Hfallback).
    set (prompt := Writer.build_prompt writer brief_text
                     (Planner.plan_scene lower brief_text)).
    destruct (generate_run (Writer.llm writer) prompt 800 120
                {| pending := tail (pending service);
                   sent := sent service ++ [GET_tags 5] |})
      as [_ (k & Hk & Hpending & Hsent)].
    destruct (LLMEngine.generate (Writer.llm writer) prompt 800 120 _)
      as [text service''].
    cbv beta iota.
    cbn [fst snd pending sent] in Hpending, Hsent.
    assert (Hgen : exists (k : nat) (prompt : str),
      (k <= 3)%nat
      /\ pending service'' = drop (S k) (pending service)
      /\ sent service''
         = sent service
           ++ GET_tags 5
              :: take k [ GET_tags 10;
                          POST_generate (LLMEngine.model engine) (lit "Olá") 5 30;
                          POST_generate (LLMEngine.model engine) prompt 800 120 ]).
    { exists k, prompt. split; [lia|].
      rewrite Hpending, Hsent, Hengine. split.
      - destruct (pending service) as [|o script]; [|reflexivity].
        cbn [tail]. rewrite !drop_nil. reflexivity.
      - rewrite <- app_assoc. reflexivity. }
    unfold ret.
    repeat match goal with
           | |- context [prints ?r] => destruct (prints r)
           end;
      exact Hgen.
Qed.

(** ** Keyword tests *)

Section ContainsFacts.
Implicit Types s p : str.

Lemma startswith_spec s p :
  startswith s p = true <-> exists r, s = p ++ r.
Proof.
  revert s. induction p as [|a p IH]; intros s.
  - split; [intros _; exists s; reflexivity | reflexivity].
  - destruct s as [|b s]; cbn [startswith].
    + split; [discriminate | intros [r Hr]; discriminate Hr].
    + destruct (bool_decide_reflect (a = b)) as [<-|Hab].
      * rewrite IH. split; intros [r Hr]; exists r.
        -- cbn. rewrite Hr. reflexivity.
        -- injection Hr as Hr. exact Hr.
      * split; [discriminate|]. intros [r Hr]. injection Hr as Heq _.
        now elim Hab.
Qed.

(** [sub in s] holds exactly when [s] is some text, [sub], some text. *)
Lemma contains_spec s p :
  contains p s = true <-> exists l r, s = l ++ p ++ r.
Proof.
  induction s as [|c t IH].
  - cbn [contains]. destruct (startswith [] p) eqn:E.
    + split; [|reflexivity]. intros _. apply startswith_spec in E as [r Hr].
      exists [], r. exact Hr.
    + split; [discriminate|]. intros (l & r & Hs).
      destruct l; [|discriminate Hs].
      assert (Hp : startswith [] p = true)
        by (apply startswith_spec; exists r; exact Hs).
      congruence.
  - rewrite contains_cons, orb_true_iff, IH, startswith_spec. split.
    + intros [[r Hr]|(l & r & Hs)].
      * exists [], r. exact Hr.
      * exists (c :: l), r. cbn. rewrite Hs. reflexivity.
    + intros ([|c' l] & r & Hs).
      * left. exists r. exact Hs.
      * right. injection Hs as _ Hs. exists l, r. exact Hs.
Qed.

Lemma contains_trans s p q :
  contains p q = true -> contains q s = true -> contains p s = true.
Proof.
  intros (l1 & r1 & Hq)%contains_spec (l2 & r2 & Hs)%contains_spec.
  apply contains_spec. exists (l2 ++ l1), (r1 ++ r2).
  rewrite Hs, Hq, <- !app_assoc. reflexivity.
Qed.

End ContainsFacts.

Lemma sol_in_ensolarado (s : str) :
  contains (lit "ensolarado") s = true -> contains (lit "sol") s = true.
Proof. apply contains_trans. vm_compute. reflexivity. Qed.

Lemma manoel_in_dr_manoel (s : str) :
  contains (lit "dr. manoel") s = true \/ contains (lit "dr manoel") s = true ->
  contains (lit "manoel") s = true.
Proof.
  intros [H|H]; revert H; apply contains_trans; vm_compute; reflexivity.
Qed.

(** Of the three tests for Dr. Manoel the two longer ones add nothing. *)
Lemma manoel_tests (s : str) :
  contains (lit "dr. manoel") s || contains (lit "manoel") s
  || contains (lit "dr manoel") s
  = contains (lit "manoel") s.
Proof.
  pose proof (manoel_in_dr_manoel s) as H.
  destruct (contains (lit "manoel") s);
    [rewrite orb_true_r; reflexivity|].
  destruct (contains (lit "dr. manoel") s); [discriminate H; left; reflexivity|].
  destruct (contains (lit "dr manoel") s); [discriminate H; right; reflexivity|].
  reflexivity.
Qed.

(** X7.  Dr. Manoel is among the characters, the Planner's and the
    Writer's, exactly when the lower-cased brief contains [manoel]; the
    tests for [dr. manoel] and [dr manoel] never decide. *)
Theorem dr_manoel_detection (lower : str -> str) (brief : str) :
  (lit "Dr. Manoel" ∈ Planner.characters (Planner._extract_elements lower brief)
   <-> contains (lit "manoel") (lower brief) = true)
  /\ (lit "Dr. Manoel" ∈ Writer.characters (Writer._analyze_brief lower brief)
      <-> contains (lit "manoel") (lower brief) = true).
Proof.
  unfold Planner._extract_elements, Writer._analyze_brief,
    Planner.characters, Writer.characters.
  cbv zeta. rewrite manoel_tests.
  destruct (contains (lit "manoel") (lower brief));
    split_keywords lower brief; cbv [andb orb]; split; decide_member.
Qed.

(** X8.  The two extractions agree: the Planner and the Writer read the
    same mood, time of day and weather from every brief (the Planner's
    extra test for [ensolarado] adds nothing to the one for [sol]),
    find a setting for the same briefs, and the Writer's action is the
    Planner's conflict type or else its crowd movement. *)
Theorem extractions_agree (lower : str -> str) (brief : str) :
  let planned := Planner._extract_elements lower brief in
  let analyzed := Writer._analyze_brief lower brief in
  Planner.mood planned = Writer.mood analyzed
  /\ Planner.time_period planned = Writer.time analyzed
  /\ Planner.weather planned = Writer.weather analyzed
  /\ (Planner.setting planned = [] <-> Writer.setting analyzed = [])
  /\ Writer.action analyzed
     = (if bool_decide (Planner.conflict_type planned = lit "encontro/confronto")
        then lit "encontro"
        else if truthy (Planner.conflict_type planned)
        then Planner.conflict_type planned
        else if bool_decide (Planner.action planned = lit "movimento intenso")
        then lit "movimento intenso"
        else []).
Proof.
  cbv zeta.
  unfold Planner._extract_elements, Writer._analyze_brief.
  cbn [Planner.mood Planner.time_period Planner.weather Planner.setting
       Planner.conflict_type Planner.action
       Writer.mood Writer.time Writer.weather Writer.setting Writer.action].
  split; [reflexivity|]. split; [reflexivity|]. split; [|split].
  - pose proof (sol_in_ensolarado (lower brief)) as Hsol.
    destruct (contains (lit "sol") (lower brief));
      [rewrite orb_true_l; reflexivity|].
    destruct (contains (lit "ensolarado") (lower brief));
      [discriminate Hsol; reflexivity | reflexivity].
  - split_keywords lower brief; cbv [orb];
      split; intros H; first [reflexivity | vm_compute in H; discriminate H].
  - split_keywords lower brief; cbv [orb]; vm_compute; reflexivity.
Qed.

Lemma nodup_by_eval (l : list str) : bool_decide (NoDup l) = true -> NoDup l.
Proof. apply bool_decide_eq_true_1. Qed.

Lemma subseteq_by_eval (l k : list str) :
  forallb (fun c => bool_decide (c ∈ k)) l = true -> l ⊆ k.
Proof.
  intros H c Hc. apply list_elem_of_In in Hc.
  rewrite forallb_forall in H. exact (bool_decide_eq_true_1 _ (H c Hc)).
Qed.

(** X9.  Every feature the Planner extracts is one of its fixed values
    or empty, whatever the brief; the characters are distinct and
    among the four names. *)
Theorem planner_features_enumerated (lower : str -> str) (brief : str) :
  let e := Planner._extract_elements lower brief in
  Planner.setting e
    ∈ [ []; lit "MASP - Museu de Arte de São Paulo"; lit "Biblioteca antiga";
        lit "Café em São Paulo"; lit "Estação de metrô" ]
  /\ Planner.mood e
       ∈ [ []; lit "tenso"; lit "suspense"; lit "emotivo"; lit "ação" ]
  /\ Planner.conflict_type e
       ∈ [ []; lit "encontro/confronto"; lit "discussão"; lit "diálogo" ]
  /\ Planner.time_period e
       ∈ [ []; lit "noite"; lit "dia"; lit "tarde"; lit "manhã" ]
  /\ Planner.weather e ∈ [ []; lit "chuva"; lit "sol" ]
  /\ Planner.action e ∈ [ []; lit "movimento intenso"; lit "ambiente calmo" ]
  /\ NoDup (Planner.characters e)
  /\ Planner.characters e
       ⊆ [ lit "Ivana"; lit "Dr. Manoel"; lit "Pai"; lit "Filha" ].
Proof.
  cbv zeta. unfold Planner._extract_elements.
  cbn [Planner.setting Planner.mood Planner.conflict_type Planner.time_period
       Planner.weather Planner.action Planner.characters].
  repeat apply conj;
    split_keywords lower brief; cbv [andb orb];
    first [ apply member_by_eval; vm_compute; reflexivity
          | apply nodup_by_eval; vm_compute; reflexivity
          | apply subseteq_by_eval; vm_compute; reflexivity ].
Qed.

(** X10.  Every feature the Writer extracts is one of its fixed values
    or empty, whatever the brief; the characters are distinct and
    among the four names. *)
Theorem writer_features_enumerated (lower : str -> str) (brief : str) :
  let e := Writer._analyze_brief lower brief in
  Writer.setting e
    ∈ [ []; lit "MASP (Museu de Arte de São Paulo)"; lit "biblioteca antiga";
        lit "café movimentado"; lit "estação de metrô" ]
  /\ Writer.mood e
       ∈ [ []; lit "tenso"; lit "suspense"; lit "emotivo"; lit "ação" ]
  /\ Writer.time e ∈ [ []; lit "noite"; lit "dia"; lit "tarde"; lit "manhã" ]
  /\ Writer.weather e ∈ [ []; lit "chuva"; lit "sol" ]
  /\ Writer.action e
       ∈ [ []; lit "encontro"; lit "discussão"; lit "diálogo";
           lit "movimento intenso" ]
  /\ NoDup (Writer.characters e)
  /\ Writer.characters e
       ⊆ [ lit "Ivana"; lit "Dr. Manoel"; lit "pai"; lit "filha" ].
Proof.
  cbv zeta. unfold Writer._analyze_brief.
  cbn [Writer.setting Writer.mood Writer.time Writer.weather Writer.action
       Writer.characters].
  repeat apply conj;
    split_keywords lower brief; cbv [andb orb];
    first [ apply member_by_eval; vm_compute; reflexivity
          | apply nodup_by_eval; vm_compute; reflexivity
          | apply subseteq_by_eval; vm_compute; reflexivity ].
Qed.

(** X11.  For every brief the rule-based scene is one opening, then the
    exchange, the vignette or the generic sentence, then one closing:
    each setting the Writer can extract has its opening, so the chain
    of tests without a final [else] never comes out empty. *)
Theorem fallback_scene_parts (lower : str -> str) (brief : str) :
  let e := Writer._analyze_brief lower brief in
  (exists opening, Writer.opening e = [opening]
     /\ opening
          ∈ [ Writer.masp_rain_opening; Writer.rain_opening (Writer.setting e);
              Writer.masp_opening; Writer.cafe_opening; Writer.library_opening;
              Writer.subway_opening; Writer.generic_opening ])
  /\ Writer.interaction e
       ∈ [ Writer.ivana_manoel_exchange; Writer.father_daughter_vignette;
           Writer.generic_interaction ]
  /\ Writer.closing e
       ∈ [ [Writer.rain_closing]; [Writer.tense_closing];
           [Writer.generic_closing] ]
  /\ (length (Writer.content_parts e) = 3 \/ length (Writer.content_parts e) = 4
      \/ length (Writer.content_parts e) = 8)%nat.
Proof.
  cbv zeta.
  assert (Hopening : exists opening,
    Writer.opening (Writer._analyze_brief lower brief) = [opening]
    /\ opening
         ∈ [ Writer.masp_rain_opening;
             Writer.rain_opening (Writer.setting (Writer._analyze_brief lower brief));
             Writer.masp_opening; Writer.cafe_opening; Writer.library_opening;
             Writer.subway_opening; Writer.generic_opening ]).
  { unfold Writer.opening, Writer._analyze_brief.
    cbn [Writer.setting Writer.weather].
    split_keywords lower brief; cbv [orb andb];
      eexists; (split; [reflexivity|]);
      apply member_by_eval; vm_compute; reflexivity. }
  assert (Hinteraction :
    Writer.interaction (Writer._analyze_brief lower brief)
      ∈ [ Writer.ivana_manoel_exchange; Writer.father_daughter_vignette;
          Writer.generic_interaction ]).
  { unfold Writer.interaction.
    destruct (_ && _); [apply list_elem_of_here|].
    destruct (_ && _);
      [apply list_elem_of_further, list_elem_of_here
      |do 2 apply list_elem_of_further; apply list_elem_of_here]. }
  assert (Hclosing :
    Writer.closing (Writer._analyze_brief lower brief)
      ∈ [ [Writer.rain_closing]; [Writer.tense_closing];
          [Writer.generic_closing] ]).
  { unfold Writer.closing.
    destruct (bool_decide _); [apply list_elem_of_here|].
    destruct (bool_decide _);
      [apply list_elem_of_further, list_elem_of_here
      |do 2 apply list_elem_of_further; apply list_elem_of_here]. }
  split; [exact Hopening|]. split; [exact Hinteraction|].
  split; [exact Hclosing|].
  destruct Hopening as (opening & Hopening & _).
  unfold Writer.content_parts. rewrite !length_app, Hopening.
  apply elem_of_cons in Hinteraction as [->|Hinteraction];
    [|apply elem_of_cons in Hinteraction as [->|Hinteraction];
      [|apply list_elem_of_singleton in Hinteraction as ->]];
    (apply elem_of_cons in Hclosing as [->|Hclosing];
     [|apply elem_of_cons in Hclosing as [->|Hclosing];
       [|apply list_elem_of_singleton in Hclosing as ->]]);
    cbn [length Writer.ivana_manoel_exchange Writer.father_daughter_vignette
         Writer.generic_interaction]; lia.
Qed.

(** ** [split] and [join] *)

Section SplitJoin.
Implicit Types s cur sep : str.

Lemma split_go_nonempty sep skip cur s : split_go sep skip cur s <> [].
Proof.
  revert skip cur. induction s as [|c t IH]; intros skip cur; [discriminate|].
  cbn [split_go]. destruct skip; [|apply IH].
  destruct (startswith (c :: t) sep); [discriminate | apply IH].
Qed.

Lemma split_go_skip sep pre cur s :
  split_go sep (length pre) cur (pre ++ s) = split_go sep O cur s.
Proof. induction pre as [|a pre IH]; [reflexivity | exact IH]. Qed.

Lemma join_cons_nonempty sep p (ps : list str) :
  ps <> [] -> join sep (p :: ps) = p ++ sep ++ join sep ps.
Proof. destruct ps; [congruence | reflexivity]. Qed.

(** Joining the pieces of a split with the separator gives the text
    back. *)
Lemma join_split_go sep :
  sep <> [] ->
  forall n s cur, (length s <= n)%nat ->
  join sep (split_go sep O cur s) = cur ++ s.
Proof.
  intros Hsep n. induction n as [|n IH]; intros [|c t] cur Hlen;
    try (cbn; rewrite app_nil_r; reflexivity); [cbn in Hlen; lia|].
  cbn in Hlen. cbn [split_go].
  destruct (startswith (c :: t) sep) eqn:E.
  - apply startswith_spec in E as [r Hr].
    destruct sep as [|a sep']; [congruence|].
    injection Hr as -> ->.
    replace (length (a :: sep') - 1)%nat with (length sep') by (cbn; lia).
    rewrite split_go_skip.
    rewrite join_cons_nonempty by apply split_go_nonempty.
    rewrite (IH r []); [reflexivity|].
    rewrite length_app in Hlen. lia.
  - rewrite (IH t (cur ++ [c])) by lia. rewrite <- app_assoc. reflexivity.
Qed.

Lemma join_split sep s : sep <> [] -> join sep (split s sep) = s.
Proof. intros Hsep. apply (join_split_go sep Hsep (length s) s []). reflexivity. Qed.

Lemma length_join_le sep p (ps : list str) :
  (length (join sep ps) <= length (join sep (p :: ps)))%nat.
Proof.
  destruct ps as [|q qs]; [cbn; lia|].
  rewrite (join_cons_nonempty sep p (q :: qs)) by discriminate.
  rewrite !length_app. lia.
Qed.

Lemma length_join_filter sep (P : str -> Prop) `{!forall p, Decision (P p)}
    (ps : list str) :
  (length (join sep (filter P ps)) <= length (join sep ps))%nat.
Proof.
  induction ps as [|p ps IH]; [reflexivity|].
  rewrite filter_cons. destruct (decide (P p)).
  - destruct (filter P ps) as [|q qs] eqn:E.
    + destruct ps as [|q qs]; [reflexivity|].
      rewrite (join_cons_nonempty sep p (q :: qs)) by discriminate.
      cbn [join]. rewrite length_app. lia.
    + destruct ps as [|q' qs']; [discriminate E|].
      rewrite (join_cons_nonempty sep p (q :: qs)) by discriminate.
      rewrite (join_cons_nonempty sep p (q' :: qs')) by discriminate.
      rewrite !length_app. lia.
  - etransitivity; [exact IH | apply length_join_le].
Qed.

Lemma contains_join_elem sep q p (ps : list str) :
  p ∈ ps -> contains q p = true -> contains q (join sep ps) = true.
Proof.
  intros Hin Hq. induction ps as [|p0 ps IH]; [inversion Hin|].
  destruct ps as [|p1 ps].
  - apply list_elem_of_singleton in Hin as ->. exact Hq.
  - rewrite join_cons_nonempty by discriminate.
    apply elem_of_cons in Hin as [->|Hin].
    + apply contains_app_r, Hq.
    + apply contains_app_l, contains_app_l, IH, Hin.
Qed.

End SplitJoin.

(** ** The Editor's passes *)

Lemma dialogue_spacing_id :
  forall n s, (length s <= n)%nat -> Editor.sub_dialogue_spacing O s = s.
Proof.
  induction n as [|n IH]; intros [|c t] Hlen; try reflexivity;
    [cbn in Hlen; lia|].
  cbn in Hlen. cbn [Editor.sub_dialogue_spacing].
  destruct (Editor.sentence_mark c && startswith t (nl ++ nl ++ dq)) eqn:E.
  - apply andb_true_iff in E as [_ E].
    apply startswith_spec in E as [r ->].
    change ((nl ++ nl ++ dq) ++ r) with (10 :: 10 :: 34 :: r).
    cbn [Editor.sub_dialogue_spacing app nl dq].
    rewrite (IH r); [reflexivity|].
    change (length ((nl ++ nl ++ dq) ++ r)) with (S (S (S (length r)))) in Hlen.
    lia.
  - rewrite (IH t) by lia. reflexivity.
Qed.

Lemma paragraph_breaks_id (s : str) :
  contains (nl ++ nl ++ nl) s = false -> Editor.sub_paragraph_breaks false s = s.
Proof.
  induction s as [|c t IH]; [reflexivity|].
  rewrite contains_cons. intros [H1 H2]%orb_false_elim.
  cbn [Editor.sub_paragraph_breaks]. rewrite H1, (IH H2). reflexivity.
Qed.

(** X12.  The line-by-line pass of [_final_polish] and the first
    substitution of [_add_final_formatting] change nothing: on every
    text the final polish is the collapse of newline runs followed by
    [strip]. *)
Theorem final_polish_is_collapse_and_strip (content : str) :
  Editor._final_polish content
  = strip (Editor.sub_paragraph_breaks false content)
  /\ Editor._add_final_formatting content
     = strip (Editor.sub_paragraph_breaks false content).
Proof.
  assert (Hformat : forall x,
    Editor._add_final_formatting x = strip (Editor.sub_paragraph_breaks false x)).
  { intros x. unfold Editor._add_final_formatting. cbv zeta.
    rewrite (dialogue_spacing_id (length x) x) by reflexivity. reflexivity. }
  split; [|apply Hformat].
  unfold Editor._final_polish. cbv zeta. rewrite Hformat.
  replace (map _ (split content nl)) with (split content nl).
  - rewrite join_split by discriminate. reflexivity.
  - induction (split content nl) as [|line lines IH]; [reflexivity|].
    cbn [map]. rewrite <- IH.
    destruct (truthy (strip line)); [|reflexivity].
    destruct (startswith (strip line) dq && endswith (strip line) dq);
      reflexivity.
Qed.

(** X13.  The final formatting is idempotent: formatting a formatted
    text returns it unchanged. *)
Theorem final_formatting_idempotent (content : str) :
  Editor._add_final_formatting (Editor._add_final_formatting content)
  = Editor._add_final_formatting content.
Proof.
  assert (Hformat : forall x,
    Editor._add_final_formatting x = strip (Editor.sub_paragraph_breaks false x)).
  { intros x. unfold Editor._add_final_formatting. cbv zeta.
    rewrite (dialogue_spacing_id (length x) x) by reflexivity. reflexivity. }
  rewrite !Hformat.
  rewrite paragraph_breaks_id; [apply strip_strip|].
  match goal with
  | |- contains ?p (strip ?x) = false =>
      destruct (contains p (strip x)) eqn:E; [|reflexivity];
      apply contains_strip in E; rewrite breaks_no_triple in E; discriminate E
  end.
Qed.

Lemma enhance_prose_phrase_free (lower : str -> str) (content : str) :
  contains Editor.rain_phrase content = false ->
  contains Editor.silhouette_phrase content = false ->
  Editor._enhance_prose lower content
  = join (nl ++ nl)
      (filter (fun p => truthy (strip p) = true) (split content (nl ++ nl))).
Proof.
  intros Hrain Hsilhouette. apply enhance_prose_plain.
  apply forallb_forall. intros p Hp. apply list_elem_of_In in Hp.
  assert (Hfree : forall q, contains q content = false -> contains q p = false).
  { intros q Hq. destruct (contains q p) eqn:E; [|reflexivity].
    apply (contains_join_elem (nl ++ nl) q p _ Hp) in E.
    rewrite join_split in E by discriminate. congruence. }
  rewrite (Hfree _ Hrain), (Hfree _ Hsilhouette). reflexivity.
Qed.

(** X14.  On a text with neither of the two phrases the enhancement
    pass only drops the blank paragraphs: the result is the non-blank
    paragraphs joined by blank lines, it is no longer than the text,
    and it is the text itself when no paragraph is blank. *)
Theorem enhance_prose_drops_blank_paragraphs (lower : str -> str)
    (content : str) :
  contains Editor.rain_phrase content = false ->
  contains Editor.silhouette_phrase content = false ->
  let paragraphs := split content (nl ++ nl) in
  Editor._enhance_prose lower content
  = join (nl ++ nl) (filter (fun p => truthy (strip p) = true) paragraphs)
  /\ (length (Editor._enhance_prose lower content) <= length content)%nat
  /\ (Forall (fun p => truthy (strip p) = true) paragraphs ->
      Editor._enhance_prose lower content = content).
Proof.
  intros Hrain Hsilhouette paragraphs.
  pose proof (enhance_prose_phrase_free lower content Hrain Hsilhouette) as Heq.
  fold paragraphs in Heq. split; [exact Heq|]. split.
  - rewrite Heq. etransitivity; [apply length_join_filter|].
    subst paragraphs. rewrite join_split by discriminate. reflexivity.
  - intros Hall. rewrite Heq.
    replace (filter _ paragraphs) with paragraphs.
    + subst paragraphs. apply join_split. discriminate.
    + clear Heq. induction Hall as [|p ps Hp _ IH]; [reflexivity|].
      rewrite filter_cons, decide_True by exact Hp. rewrite <- IH. reflexivity.
Qed.

Lemma enhance_prose_drops_blank_paragraphs_witness :
  Editor._enhance_prose lower_latin1
    (lit "Um." ++ nl ++ nl ++ nl ++ nl ++ lit "Dois.")
  = lit "Um." ++ nl ++ nl ++ lit "Dois.".
Proof.
  destruct (enhance_prose_drops_blank_paragraphs lower_latin1
              (lit "Um." ++ nl ++ nl ++ nl ++ nl ++ lit "Dois."))
    as (Heq & _); [vm_compute; reflexivity | vm_compute; reflexivity |].
  rewrite Heq. vm_compute. reflexivity.
Defined.

Section ReplaceLength.
Variables old new : str.
Hypothesis Hshorter : (length new <= length old)%nat.

Lemma startswith_length (s p : str) :
  startswith s p = true -> (length p <= length s)%nat.
Proof.
  intros [r ->]%startswith_spec. rewrite length_app. lia.
Qed.

Lemma replace_go_length (s : str) (skip : nat) :
  (skip <= length s)%nat ->
  (length (replace_go old new skip s) + skip <= length s)%nat.
Proof.
  revert skip. induction s as [|c t IH]; intros skip Hskip.
  - cbn in *. lia.
  - cbn [replace_go]. destruct skip as [|k].
    + destruct (startswith (c :: t) old) eqn:E.
      * apply startswith_length in E. cbn [length] in *.
        rewrite length_app.
        destruct old as [|a old']; cbn [length] in *.
        -- assert (new = []) as -> by (destruct new; [reflexivity | cbn in *; lia]).
           specialize (IH O ltac:(lia)). cbn in *. lia.
        -- specialize (IH (S (length old') - 1)%nat ltac:(lia)). lia.
      * specialize (IH O ltac:(lia)). cbn [length]. lia.
    + cbn [length] in *. specialize (IH k ltac:(lia)). lia.
Qed.

End ReplaceLength.

(** X15.  The literal corrections never lengthen a text. *)
Theorem style_corrections_never_lengthen (content : str) :
  (length (Editor._apply_style_corrections content) <= length content)%nat.
Proof.
  rewrite style_corrections_unfold.
  pose proof (replace_go_length [32; 44] [44] ltac:(cbn; lia) content O
                ltac:(lia)) as H1.
  set (x1 := replace_go [32; 44] [44] O content) in *.
  pose proof (replace_go_length [32; 46] [46] ltac:(cbn; lia) x1 O
                ltac:(lia)) as H2.
  set (x2 := replace_go [32; 46] [46] O x1) in *.
  pose proof (replace_go_length [32; 32] [32] ltac:(cbn; lia) x2 O
                ltac:(lia)) as H3.
  set (x3 := replace_go [32; 32] [32] O x2) in *.
  pose proof (replace_go_length [10; 10; 10] [10; 10] ltac:(cbn; lia) x3 O
                ltac:(lia)) as H4.
  lia.
Qed.

(** A replacement by characters foreign to a pattern cannot make the
    pattern appear. *)
Section ReplaceKeepsAbsent.
Variables old new p : str.
Hypothesis Hnew : new <> [].
Hypothesis Hforeign : forall c, c ∈ new -> c ∉ p.
Hypothesis Hp : p <> [].

Lemma foreign_prefix (front x : str) :
  (forall c, c ∈ front -> c ∉ p) ->
  contains p x = false -> contains p (front ++ x) = false.
Proof.
  intros Hfront Hx. induction front as [|b rest IH]; [exact Hx|].
  cbn [app]. rewrite contains_cons.
  rewrite IH by (intros c Hc; apply Hfront; now right).
  rewrite orb_false_r.
  destruct p as [|a p']; [congruence|]. cbn [startswith].
  rewrite bool_decide_eq_false_2; [reflexivity|].
  intros ->. apply (Hfront b); [now left | now left].
Qed.

Lemma replace_go_startswith (s : str) :
  startswith (replace_go old new O s) p = true -> startswith s p = true.
Proof.
  revert Hforeign Hp. generalize p. clear p.
  induction s as [|c t IH]; intros p Hforeign Hp.
  - cbn. intros H. exact H.
  - cbn [replace_go]. destruct (startswith (c :: t) old).
    + destruct new as [|b rest]; [congruence|].
      destruct p as [|a p']; [congruence|]. cbn [app startswith].
      rewrite bool_decide_eq_false_2; [discriminate|].
      intros ->. apply (Hforeign b); now left.
    + destruct p as [|a p']; [congruence|]. cbn [startswith].
      destruct (bool_decide (a = c)); [|discriminate].
      destruct p' as [|a' p'']; [reflexivity|].
      apply IH; [|discriminate].
      intros x Hx Hin. apply (Hforeign x Hx). now right.
Qed.

Lemma replace_go_keeps_absent (s : str) (skip : nat) :
  contains p s = false -> contains p (replace_go old new skip s) = false.
Proof.
  revert skip. induction s as [|c t IH]; intros skip Hs; [exact Hs|].
  pose proof Hs as Hs'. rewrite contains_cons in Hs'.
  apply orb_false_elim in Hs' as [Hhere Ht].
  cbn [replace_go]. destruct skip as [|k]; [|apply IH, Ht].
  destruct (startswith (c :: t) old) eqn:E.
  - apply foreign_prefix; [exact Hforeign | apply IH, Ht].
  - rewrite contains_cons, (IH O Ht), orb_false_r.
    destruct (startswith (c :: replace_go old new O t) p) eqn:Ep; [|reflexivity].
    assert (Hs2 : startswith (replace_go old new O (c :: t)) p = true)
      by (cbn [replace_go]; rewrite E; exact Ep).
    apply replace_go_startswith in Hs2. congruence.
Qed.

End ReplaceKeepsAbsent.

Lemma length_strip (s : str) : (length (strip s) <= length s)%nat.
Proof.
  unfold strip.
  destruct (lstrip_suffix s) as [pre Hpre].
  destruct (rstrip_prefix (lstrip s)) as [post Hpost].
  rewrite Hpre at 2. rewrite Hpost at 2. rewrite !length_app. lia.
Qed.

Lemma length_paragraph_breaks (s : str) :
  (length (Editor.sub_paragraph_breaks false s) <= length s)%nat
  /\ (length (Editor.sub_paragraph_breaks true s)
      + (if bool_decide (head s = Some 10%N) then 1 else 0) <= length s)%nat.
Proof.
  induction s as [|c t [IHf IHt]].
  { split; [reflexivity|].
    rewrite bool_decide_eq_false_2 by discriminate. reflexivity. }
  cbn [Editor.sub_paragraph_breaks]. split.
  - rewrite startswith_nl3_cons.
    destruct (N.eqb_spec c 10) as [->|Hc]; cbn [andb].
    + destruct (startswith t (nl ++ nl)) eqn:Et.
      * apply startswith_nl2_head in Et.
        rewrite bool_decide_eq_true_2 in IHt by exact Et.
        cbn [app nl length]. lia.
      * cbn [length]. lia.
    + cbn [length]. lia.
  - destruct (N.eqb_spec c 10) as [->|Hc].
    + rewrite bool_decide_eq_true_2 by reflexivity.
      cbn [length]. destruct (bool_decide (head t = Some 10)); lia.
    + rewrite bool_decide_eq_false_2 by (cbn; congruence). cbn [length]. lia.
Qed.

Lemma chars_subset_by_eval (l k : str) :
  forallb (fun c => bool_decide (c ∈ k)) l = true -> forall c, c ∈ l -> c ∈ k.
Proof.
  intros H c Hc. apply list_elem_of_In in Hc.
  rewrite forallb_forall in H. exact (bool_decide_eq_true_1 _ (H c Hc)).
Qed.

(** Neither keyword can appear through the literal corrections, which
    only bring commas, full stops, spaces and newlines together. *)
Lemma style_corrections_keep_absent (word content : str) :
  word <> [] ->
  (forall c, c ∈ [44; 46; 32; 10] -> c ∉ word) ->
  contains word content = false ->
  contains word (Editor._apply_style_corrections content) = false.
Proof.
  intros Hword Hforeign Habsent. rewrite style_corrections_unfold.
  repeat (apply replace_go_keeps_absent;
          [ discriminate
          | intros c Hc; apply Hforeign; revert c Hc;
            apply chars_subset_by_eval; reflexivity
          | exact Hword | ]).
  exact Habsent.
Qed.

(** Without the two phrases the enhancement pass looks for, the Editor
    is the style corrections followed by the final polish. *)
Lemma edit_scene_without_phrases (lower : str -> str)
    (scene_content brief scene_plan : str) :
  contains (lit "tamborilava") scene_content = false ->
  contains (lit "silhueta") scene_content = false ->
  Editor.edit_scene lower scene_content brief scene_plan
  = strip
      (Editor.sub_paragraph_breaks false
         (join (nl ++ nl)
            (filter (fun p => truthy (strip p) = true)
               (split (Editor._apply_style_corrections scene_content)
                  (nl ++ nl))))).
Proof.
  intros Hrain Hsilhouette.
  assert (Hforeign : forall word : str,
    bool_decide (Forall (fun c : N => c ∉ word) [44; 46; 32; 10]) = true ->
    forall c : N, c ∈ [44; 46; 32; 10] -> c ∉ word).
  { intros word Hword c Hc. apply bool_decide_eq_true_1 in Hword.
    rewrite Forall_forall in Hword. apply Hword, Hc. }
  set (corrected := Editor._apply_style_corrections scene_content).
  assert (Hr : contains Editor.rain_phrase corrected = false).
  { destruct (contains Editor.rain_phrase corrected) eqn:E; [|reflexivity].
    assert (Hw : contains (lit "tamborilava") corrected = true)
      by (revert E; apply contains_trans; vm_compute; reflexivity).
    unfold corrected in Hw.
    rewrite style_corrections_keep_absent in Hw;
      [discriminate Hw | vm_compute; discriminate
      | apply Hforeign; vm_compute; reflexivity | exact Hrain]. }
  assert (Hs : contains Editor.silhouette_phrase corrected = false).
  { destruct (contains Editor.silhouette_phrase corrected) eqn:E; [|reflexivity].
    assert (Hw : contains (lit "silhueta") corrected = true)
      by (revert E; apply contains_trans; vm_compute; reflexivity).
    unfold corrected in Hw.
    rewrite style_corrections_keep_absent in Hw;
      [discriminate Hw | vm_compute; discriminate
      | apply Hforeign; vm_compute; reflexivity | exact Hsilhouette]. }
  assert (Hedit : Editor.edit_scene lower scene_content brief scene_plan
    = strip
        (Editor.sub_paragraph_breaks false
           (join (nl ++ nl)
              (filter (fun p => truthy (strip p) = true)
                 (split corrected (nl ++ nl)))))).
  { unfold Editor.edit_scene. cbv zeta. fold corrected.
    rewrite (enhance_prose_phrase_free lower corrected Hr Hs).
    unfold Editor._final_polish, Editor._add_final_formatting. cbv zeta.
    match goal with
    | |- context [map ?f (split ?x nl)] =>
        replace (map f (split x nl)) with (split x nl)
    end.
    - rewrite join_split by discriminate.
      match goal with
      | |- context [Editor.sub_dialogue_spacing O ?x] =>
          rewrite (dialogue_spacing_id (length x) x) by reflexivity
      end.
      reflexivity.
    - match goal with |- ?l = map _ ?l => induction l as [|line lines IH] end;
        [reflexivity|].
      cbn [map]. rewrite <- IH.
      destruct (truthy (strip line)); [|reflexivity].
      destruct (startswith (strip line) dq && endswith (strip line) dq);
        reflexivity. }
  exact Hedit.
Qed.

(** X16.  On a draft that has neither the word [tamborilava] nor the
    word [silhueta] the Editor only deletes: the edited text is the
    corrected draft with blank paragraphs dropped, newline runs
    collapsed and the ends trimmed, whatever the lower-casing, and it
    is no longer than the draft. *)
Theorem edit_scene_only_deletes (lower : str -> str)
    (scene_content brief scene_plan : str) :
  contains (lit "tamborilava") scene_content = false ->
  contains (lit "silhueta") scene_content = false ->
  Editor.edit_scene lower scene_content brief scene_plan
  = strip
      (Editor.sub_paragraph_breaks false
         (join (nl ++ nl)
            (filter (fun p => truthy (strip p) = true)
               (split (Editor._apply_style_corrections scene_content)
                  (nl ++ nl)))))
  /\ (length (Editor.edit_scene lower scene_content brief scene_plan)
      <= length scene_content)%nat.
Proof.
  intros Hrain Hsilhouette.
  pose proof (edit_scene_without_phrases lower scene_content brief scene_plan
                Hrain Hsilhouette) as Hedit.
  set (corrected := Editor._apply_style_corrections scene_content) in *.
  split; [exact Hedit|]. rewrite Hedit.
  etransitivity; [apply length_strip|].
  etransitivity; [apply length_paragraph_breaks|].
  etransitivity; [apply length_join_filter|].
  rewrite join_split by discriminate.
  subst corrected. rewrite style_corrections_unfold.
  pose proof (replace_go_length [32; 44] [44] ltac:(cbn; lia) scene_content O
                ltac:(lia)) as H1.
  set (x1 := replace_go [32; 44] [44] O scene_content) in *.
  pose proof (replace_go_length [32; 46] [46] ltac:(cbn; lia) x1 O
                ltac:(lia)) as H2.
  set (x2 := replace_go [32; 46] [46] O x1) in *.
  pose proof (replace_go_length [32; 32] [32] ltac:(cbn; lia) x2 O
                ltac:(lia)) as H3.
  set (x3 := replace_go [32; 32] [32] O x2) in *.
  pose proof (replace_go_length [10; 10; 10] [10; 10] ltac:(cbn; lia) x3 O
                ltac:(lia)) as H4.
  lia.
Qed.

Lemma edit_scene_only_deletes_witness :
  (length (Editor.edit_scene lower_latin1
             (lit " Ela chegou , enfim ." ++ nl ++ nl ++ nl ++ nl ++ lit "Silêncio.  ")
             [] [])
   <= length (lit " Ela chegou , enfim ." ++ nl ++ nl ++ nl ++ nl ++ lit "Silêncio.  "))%nat.
Proof.
  apply (edit_scene_only_deletes lower_latin1); vm_compute; reflexivity.
Defined.

(** ** What the engine's fixed text quotes *)

Lemma not_member_char (c : N) (s : str) : bool_decide (c ∈ s) = false -> c ∉ s.
Proof. apply bool_decide_eq_false_1. Qed.

Section FindFacts.
Implicit Types s sub x y : str.

Lemma find_from_here sub s i : startswith s sub = true -> find_from sub s i = i.
Proof. intros H. destruct s; cbn [find_from]; rewrite H; reflexivity. Qed.

Lemma startswith_before_nl sub x y :
  10 ∉ sub -> startswith (x ++ 10 :: y) sub = startswith x sub.
Proof.
  revert x. induction sub as [|a sub IH]; intros x Hsub; [reflexivity|].
  apply not_elem_of_cons in Hsub as [Ha Hsub].
  destruct x as [|c x]; cbn [app startswith].
  - rewrite bool_decide_eq_false_2 by (intros ->; now apply Ha). reflexivity.
  - destruct (bool_decide (a = c)); [apply IH, Hsub | reflexivity].
Qed.

(** A pattern without a newline is searched for line by line. *)
Lemma find_from_after_nl sub x y i :
  10 ∉ sub -> contains sub x = false ->
  find_from sub (x ++ 10 :: y) i = find_from sub y (i + len x + 1)%Z.
Proof.
  intros Hsub. revert i. induction x as [|c x IH]; intros i Hx.
  - pose proof (startswith_before_nl sub [] y Hsub) as E. cbn [app] in E.
    cbn [app find_from]. rewrite E.
    cbn [contains] in Hx. destruct (startswith [] sub); [discriminate Hx|].
    f_equal. unfold len. cbn. lia.
  - rewrite contains_cons in Hx. apply orb_false_elim in Hx as [Hc Hx].
    cbn [app find_from].
    change (c :: x ++ 10 :: y) with ((c :: x) ++ 10 :: y).
    rewrite (startswith_before_nl sub (c :: x) y Hsub), Hc.
    rewrite (IH _ Hx). f_equal. unfold len. cbn [length]. lia.
Qed.

Lemma find_from_skip_nl sub y i :
  10 ∉ sub -> sub <> [] ->
  find_from sub (10 :: y) i = find_from sub y (i + 1)%Z.
Proof.
  intros Hsub Hne. change (10 :: y) with ([] ++ 10 :: y).
  rewrite (find_from_after_nl sub [] y i Hsub).
  - f_equal. unfold len. cbn. lia.
  - destruct sub; [congruence | reflexivity].
Qed.

Lemma find_from_blank_line x y i :
  10 ∉ x -> find_from (nl ++ nl) (x ++ 10 :: 10 :: y) i = (i + len x)%Z.
Proof.
  intros Hx. revert i. induction x as [|c x IH]; intros i.
  - rewrite find_from_here by reflexivity. unfold len. cbn. lia.
  - apply not_elem_of_cons in Hx as [Hc Hx].
    cbn [app find_from nl startswith].
    rewrite bool_decide_eq_false_2 by exact Hc.
    rewrite (IH Hx). unfold len. cbn [length]. lia.
Qed.

Lemma find_zero s sub : find s sub 0 = find_from sub s 0.
Proof.
  unfold find. replace (Z.of_nat (length s) <? 0)%Z with false
    by (symmetry; apply Z.ltb_ge; lia).
  reflexivity.
Qed.

Lemma find_past x y sub :
  find (x ++ y) sub (len x) = find_from sub y (len x).
Proof.
  unfold find, len. rewrite length_app.
  replace (Z.of_nat (length x + length y) <? Z.of_nat (length x))%Z with false
    by (symmetry; apply Z.ltb_ge; lia).
  rewrite Nat2Z.id, drop_app_length. reflexivity.
Qed.

Lemma slice_past x y n :
  slice (x ++ y) (len x) (len x + Z.of_nat n) = take n y.
Proof.
  unfold slice, len.
  rewrite Nat2Z.id, drop_app_length. f_equal. lia.
Qed.

End FindFacts.

Lemma build_prompt_shape (self : Writer.t) (brief scene_plan : str) :
  exists rest,
    Writer.build_prompt self brief scene_plan
    = (lit "Você é um escritor profissional especializado em narrativa literária. Sua tarefa é escrever uma cena baseada no brief e plano fornecidos."
       ++ 10 :: 10 :: join (nl ++ nl) (Writer.context_parts self) ++ [10; 10])
      ++ LLMEngine.brief_marker ++ 10 :: brief ++ 10 :: 10 :: rest.
Proof.
  unfold Writer.build_prompt. cbv zeta.
  destruct (Writer.context_parts self) as [|part parts]; cbv iota.
  - cbn [join app]. eexists. unfold LLMEngine.brief_marker.
    change nl with [10]. cbn [app].
    repeat (rewrite <- app_assoc; cbn [app]). reflexivity.
  - generalize (join (nl ++ nl) (part :: parts)). intros context.
    cbn [join app]. eexists. unfold LLMEngine.brief_marker.
    change nl with [10]. cbn [app].
    repeat (rewrite <- app_assoc; cbn [app]). reflexivity.
Qed.

(** X17.  The fixed text the engine returns for a prompt of the Writer
    quotes the brief: when the context sections of the prompt do not
    hold the marker [BRIEF DA CENA:] and the brief is a single line,
    the text is built around the trimmed brief. *)
Theorem fallback_text_quotes_brief (engine : LLMEngine.t) (self : Writer.t)
    (brief scene_plan : str) :
  contains LLMEngine.brief_marker (join (nl ++ nl) (Writer.context_parts self))
  = false ->
  10 ∉ brief ->
  Canned.quoted_brief (Writer.build_prompt self brief scene_plan) = strip brief
  /\ LLMEngine._fallback_response engine
       (Writer.build_prompt self brief scene_plan)
     = Canned.fallback_text (LLMEngine.model engine) (strip brief).
Proof.
  intros Hcontext Hline.
  assert (Hquote :
    Canned.quoted_brief (Writer.build_prompt self brief scene_plan) = strip brief).
  { destruct (build_prompt_shape self brief scene_plan) as [rest ->].
    set (context := join (nl ++ nl) (Writer.context_parts self)) in *.
    set (first_line := lit "Você é um escritor profissional especializado em narrativa literária. Sua tarefa é escrever uma cena baseada no brief e plano fornecidos.").
    set (before := first_line ++ 10 :: 10 :: context ++ [10; 10]).
    set (after := 10 :: brief ++ 10 :: 10 :: rest).
    assert (Hmarker : 10 ∉ LLMEngine.brief_marker)
      by (apply not_member_char; vm_compute; reflexivity).
    assert (Hfirst : contains LLMEngine.brief_marker first_line = false)
      by (vm_compute; reflexivity).
    assert (Hfind : find_from LLMEngine.brief_marker
                      (before ++ LLMEngine.brief_marker ++ after) 0
                    = len before).
    { subst before. rewrite <- !app_assoc. cbn [app].
      rewrite (find_from_after_nl _ first_line _ _ Hmarker Hfirst).
      rewrite (find_from_skip_nl _ _ _ Hmarker) by discriminate.
      rewrite <- app_assoc. cbn [app].
      rewrite (find_from_after_nl _ context _ _ Hmarker Hcontext).
      rewrite (find_from_skip_nl _ _ _ Hmarker) by discriminate.
      rewrite find_from_here
        by (apply startswith_spec; eexists; reflexivity).
      unfold len. rewrite length_app. cbn [length]. rewrite length_app.
      cbn [length]. lia. }
    unfold Canned.quoted_brief.
    replace (contains LLMEngine.brief_marker
               (before ++ LLMEngine.brief_marker ++ after)) with true
      by (symmetry; apply contains_spec; exists before, after; reflexivity).
    cbv zeta. rewrite find_zero, Hfind.
    replace (len before + len LLMEngine.brief_marker)%Z
      with (len (before ++ LLMEngine.brief_marker))
      by (unfold len; rewrite length_app; lia).
    rewrite (app_assoc before).
    rewrite find_past.
    destruct brief as [|c brief'].
    - subst after. cbn [app].
      rewrite find_from_here by reflexivity.
      replace (len (before ++ LLMEngine.brief_marker) =? -1)%Z with false
        by (symmetry; apply Z.eqb_neq; unfold len; lia).
      replace (len (before ++ LLMEngine.brief_marker))
        with (len (before ++ LLMEngine.brief_marker) + Z.of_nat 0)%Z at 2
        by lia.
      rewrite slice_past. reflexivity.
    - apply not_elem_of_cons in Hline as [Hc Hline].
      subst after. cbn [find_from nl app startswith].
      rewrite bool_decide_eq_true_2 by reflexivity.
      rewrite bool_decide_eq_false_2 by exact Hc.
      change (c :: brief' ++ 10 :: 10 :: rest)
        with ((c :: brief') ++ 10 :: 10 :: rest).
      rewrite find_from_blank_line by exact Hline.
      replace (_ =? -1)%Z with false
        by (symmetry; apply Z.eqb_neq; unfold len; lia).
      replace (len (before ++ LLMEngine.brief_marker) + 1 + 1 + len brief')%Z
        with (len (before ++ LLMEngine.brief_marker)
              + Z.of_nat (S (length (c :: brief'))))%Z
        by (unfold len; cbn [length]; lia).
      rewrite slice_past.
      change (10 :: (c :: brief') ++ 10 :: 10 :: rest)
        with ((10 :: c :: brief') ++ 10 :: 10 :: rest).
      change (S (length (c :: brief'))) with (length (10 :: c :: brief')).
      rewrite take_app_length. reflexivity. }
  split; [exact Hquote|].
  rewrite fallback_response_unfold, Hquote. reflexivity.
Qed.

Lemma fallback_text_quotes_brief_witness :
  Canned.quoted_brief
    (Writer.build_prompt example_writer (lit "  Uma cena no MASP. ") scenario_brief)
  = lit "Uma cena no MASP.".
Proof.
  destruct (fallback_text_quotes_brief example_engine example_writer
              (lit "  Uma cena no MASP. ") scenario_brief) as [Hquote _].
  - vm_compute. reflexivity.
  - apply not_member_char. vm_compute. reflexivity.
  - rewrite Hquote. vm_compute. reflexivity.
Defined.

(** ** The Editor on the rule-based scene *)

(** The settings and weathers the Writer can read off a brief, and the
    exchanges and closings it can choose. *)
Lemma writer_brief_cases (lower : str -> str) (brief : str) :
  let e := Writer._analyze_brief lower brief in
  Writer.setting e
    ∈ [ lit "MASP (Museu de Arte de São Paulo)"; lit "biblioteca antiga";
        lit "café movimentado"; lit "estação de metrô"; [] ]
  /\ Writer.weather e ∈ [ lit "chuva"; lit "sol"; [] ]
  /\ Writer.interaction e
       ∈ [ Writer.ivana_manoel_exchange; Writer.father_daughter_vignette;
           Writer.generic_interaction ]
  /\ Writer.closing e
       ∈ [ [Writer.rain_closing]; [Writer.tense_closing];
           [Writer.generic_closing] ].
Proof.
  cbv zeta. repeat split.
  - unfold Writer._analyze_brief. cbn [Writer.setting].
    split_keywords lower brief; cbv [orb];
      apply member_by_eval; vm_compute; reflexivity.
  - unfold Writer._analyze_brief. cbn [Writer.weather].
    split_keywords lower brief; cbv [orb];
      apply member_by_eval; vm_compute; reflexivity.
  - unfold Writer.interaction.
    destruct (_ && _); [apply list_elem_of_here|].
    destruct (_ && _); [apply list_elem_of_further, list_elem_of_here|].
    do 2 apply list_elem_of_further. apply list_elem_of_here.
  - unfold Writer.closing.
    destruct (bool_decide _); [apply list_elem_of_here|].
    destruct (bool_decide _); [apply list_elem_of_further, list_elem_of_here|].
    do 2 apply list_elem_of_further. apply list_elem_of_here.
Qed.

Ltac member_cases H :=
  repeat (apply elem_of_cons in H; destruct H as [H|H]; [subst|]);
  [..|apply elem_of_nil in H; destruct H].

Ltac length_clash H :=
  apply (f_equal (@length N)) in H; vm_compute in H; discriminate H.

(** X18.  Offline, whenever the brief does not combine rain with the
    MASP, the Editor's whole effect on the rule-based scene is the
    style corrections; it changes the scene exactly when the brief
    asks for rain and names no known setting, where the empty setting
    name leaves a double space in the opening that the corrections
    collapse. *)
Theorem rule_based_scene_edit (lower : str -> str) (brief scene_plan : str) :
  let e := Writer._analyze_brief lower brief in
  let draft := Writer._write_scene_fallback lower brief scene_plan in
  ~ (Writer.weather e = lit "chuva"
     /\ Writer.setting e = lit "MASP (Museu de Arte de São Paulo)") ->
  Editor.edit_scene lower draft brief scene_plan
  = Editor._apply_style_corrections draft
  /\ (Writer.weather e = lit "chuva" /\ Writer.setting e = [] ->
      Editor.edit_scene lower draft brief scene_plan <> draft)
  /\ (~ (Writer.weather e = lit "chuva" /\ Writer.setting e = []) ->
      Editor.edit_scene lower draft brief scene_plan = draft).
Proof.
  cbv zeta.
  unfold Writer._write_scene_fallback, Writer._generate_scene_content,
    Writer.content_parts.
  cbv zeta.
  destruct (writer_brief_cases lower brief) as (Hs & Hw & Hi & Hc).
  unfold Writer.opening.
  revert Hs Hw Hi Hc.
  generalize (Writer.interaction (Writer._analyze_brief lower brief)).
  generalize (Writer.closing (Writer._analyze_brief lower brief)).
  generalize (Writer.weather (Writer._analyze_brief lower brief)).
  generalize (Writer.setting (Writer._analyze_brief lower brief)).
  intros s w c i Hs Hw Hi Hc Hno.
  member_cases Hs; member_cases Hw;
    try (exfalso; apply Hno; split; reflexivity);
    member_cases Hi; member_cases Hc;
    match goal with
    | |- context [Editor.edit_scene lower ?d _ _] =>
        pose proof (edit_scene_without_phrases lower d brief scene_plan
                      ltac:(vm_compute; reflexivity)
                      ltac:(vm_compute; reflexivity)) as Hedit;
        rewrite Hedit; clear Hedit
    end;
    (split; [vm_compute; reflexivity|]);
    (split;
     [ intros [Hw Hs];
       first [ length_clash Hw | length_clash Hs
             | intros Heq; length_clash Heq ]
     | intros Hn;
       first [ vm_compute; reflexivity
             | exfalso; apply Hn; split; reflexivity ] ]).
Qed.

Lemma rule_based_scene_edit_witness :
  Editor.edit_scene lower_latin1
    (Writer._write_scene_fallback lower_latin1
       (lit "Uma despedida em noite chuvosa.") [])
    (lit "Uma despedida em noite chuvosa.") []
  <> Writer._write_scene_fallback lower_latin1
       (lit "Uma despedida em noite chuvosa.") [].
Proof.
  apply (rule_based_scene_edit lower_latin1
           (lit "Uma despedida em noite chuvosa.") []).
  - intros [_ Hs]. length_clash Hs.
  - split; vm_compute; reflexivity.
Defined.

(** ** The literal corrections: where one pass is enough *)

Lemma startswith_two (x y c : N) (s : str) :
  startswith (c :: s) [x; y]
  = bool_decide (x = c) && bool_decide (head s = Some y).
Proof.
  cbn. destruct (bool_decide (x = c)); [|reflexivity].
  destruct s as [|d r]; [reflexivity|]. cbn.
  destruct (bool_decide_reflect (y = d)) as [<-|Hd].
  - rewrite bool_decide_eq_true_2 by reflexivity. reflexivity.
  - rewrite bool_decide_eq_false_2 by congruence. reflexivity.
Qed.

Lemma startswith_three (x y z c : N) (s : str) :
  startswith (c :: s) [x; y; z] = bool_decide (x = c) && startswith s [y; z].
Proof. cbn. destruct (bool_decide (x = c)); reflexivity. Qed.

Lemma startswith_contains (p s : str) :
  startswith s p = true -> contains p s = true.
Proof.
  intros H. destruct s as [|c t].
  - cbn [contains]. rewrite H. reflexivity.
  - rewrite contains_cons, H. reflexivity.
Qed.

Lemma contains_further (p : str) (c : N) (s : str) :
  contains p s = true -> contains p (c :: s) = true.
Proof. intros H. rewrite contains_cons, H. apply orb_true_r. Qed.

(** Deleting [a] before [b], continued. *)
Section DeleteRuns.
Variables a b : N.
Hypothesis Hab : a <> b.
Implicit Types s p : str.

Local Abbreviation D := (replace_go [a; b] [b] O).

(** Where no two [a] stand before a [b], no [a] is left before a [b]. *)
Lemma delete_clears_runs s :
  contains [a; a; b] s = false -> contains [a; b] (D s) = false.
Proof.
  induction s as [|c t IH]; [reflexivity|].
  intros H. rewrite contains_cons in H. apply orb_false_elim in H as [H1 H2].
  rewrite (delete_step a b Hab). destruct (startswith (c :: t) [a; b]) eqn:Em.
  - apply IH, H2.
  - rewrite contains_cons, (IH H2), orb_false_r.
    destruct (startswith (c :: D t) [a; b]) eqn:E; [|reflexivity]. exfalso.
    rewrite startswith_two in E, Em. rewrite startswith_three in H1.
    destruct (bool_decide (a = c)); [|discriminate E]. cbn [andb] in *.
    apply bool_decide_eq_true_1 in E.
    apply (delete_head a b Hab) in E as [Hh|[_ Hh]].
    + rewrite bool_decide_eq_true_2 in Em by exact Hh. discriminate Em.
    + rewrite Hh in H1. discriminate H1.
Qed.

(** A pattern without [b] that is not cut at its end stays. *)
Lemma delete_startswith_kept s p :
  b ∉ p ->
  last p <> Some a \/ startswith s (p ++ [b]) = false ->
  startswith s p = true -> startswith (D s) p = true.
Proof.
  revert p. induction s as [|c t IH]; intros [|x p] Hb Hend H;
    try reflexivity; try discriminate H.
  apply not_elem_of_cons in Hb as [Hx Hb].
  cbn [startswith] in H.
  destruct (bool_decide_reflect (x = c)) as [->|]; [|discriminate H].
  rewrite (delete_step a b Hab).
  destruct (startswith (c :: t) [a; b]) eqn:Em.
  - exfalso. rewrite startswith_two in Em.
    apply andb_true_iff in Em as [Hc Ht].
    apply bool_decide_eq_true_1 in Hc, Ht. subst c.
    destruct t as [|d t']; [discriminate Ht|]. injection Ht as ->.
    destruct p as [|y p'].
    + destruct Hend as [Hend|Hend]; [now apply Hend|].
      cbn in Hend. rewrite !bool_decide_eq_true_2 in Hend by reflexivity.
      discriminate Hend.
    + cbn [startswith] in H.
      apply not_elem_of_cons in Hb as [Hy _].
      rewrite bool_decide_eq_false_2 in H by (intros ->; now apply Hy).
      discriminate H.
  - cbn [startswith]. rewrite bool_decide_eq_true_2 by reflexivity.
    destruct p as [|y p']; [destruct (D t); reflexivity|].
    apply IH; [exact Hb| |exact H].
    destruct Hend as [Hend|Hend]; [left; exact Hend|right].
    cbn [app startswith] in Hend.
    rewrite bool_decide_eq_true_2 in Hend by reflexivity. exact Hend.
Qed.

Lemma delete_keeps_present s p :
  b ∉ p ->
  last p <> Some a \/ contains (p ++ [b]) s = false ->
  contains p s = true -> contains p (D s) = true.
Proof.
  intros Hb. induction s as [|c t IH]; intros Hend H.
  - exact H.
  - rewrite contains_cons in H.
    assert (Hend_t : last p <> Some a \/ contains (p ++ [b]) t = false).
    { destruct Hend as [Hend|Hend]; [left; exact Hend|right].
      rewrite contains_cons in Hend.
      apply orb_false_elim in Hend as [_ Hend]. exact Hend. }
    destruct (startswith (c :: t) p) eqn:Es.
    + apply startswith_contains, delete_startswith_kept;
        [exact Hb| |exact Es].
      destruct Hend as [Hend|Hend]; [left; exact Hend|right].
      rewrite contains_cons in Hend.
      apply orb_false_elim in Hend as [Hend _]. exact Hend.
    + cbn [orb] in H. specialize (IH Hend_t H).
      rewrite (delete_step a b Hab).
      destruct (startswith (c :: t) [a; b]); [exact IH|].
      apply contains_further, IH.
Qed.

(** Two [a] before a [b] leave one. *)
Lemma delete_run_present s :
  contains [a; a; b] s = true -> contains [a; b] (D s) = true.
Proof.
  induction s as [|c t IH]; [discriminate|].
  rewrite contains_cons. intros H.
  destruct (startswith (c :: t) [a; a; b]) eqn:Es.
  - clear H IH. apply startswith_contains.
    apply startswith_spec in Es as [r Hr]. cbn in Hr. rewrite Hr.
    assert (H1 : D (a :: b :: r) = b :: D r).
    { rewrite (delete_step a b Hab a (b :: r)), startswith_two. cbn [head].
      rewrite !bool_decide_eq_true_2 by reflexivity. cbn [andb].
      rewrite (delete_step a b Hab b r), startswith_two.
      rewrite (bool_decide_eq_false_2 (a = b)) by exact Hab. reflexivity. }
    rewrite (delete_step a b Hab a (a :: b :: r)), startswith_two. cbn [head].
    rewrite (bool_decide_eq_false_2 (Some a = Some b)) by congruence.
    rewrite andb_false_r, H1. cbn.
    rewrite !bool_decide_eq_true_2 by reflexivity. reflexivity.
  - cbn [orb] in H. specialize (IH H).
    rewrite (delete_step a b Hab).
    destruct (startswith (c :: t) [a; b]); [exact IH|].
    apply contains_further, IH.
Qed.

End DeleteRuns.

(** Two [a] to one: the third of the four replacements. *)
Section DoubleChar.
Variable a : N.
Implicit Types s p : str.

Local Abbreviation R := (replace_go [a; a] [a] O).

Lemma double_step c t :
  R (c :: t)
  = if startswith (c :: t) [a; a] then a :: R (tail t) else c :: R t.
Proof.
  cbn [replace_go]. destruct (startswith (c :: t) [a; a]) eqn:E;
    [|reflexivity].
  destruct t as [|d t']; [|reflexivity].
  rewrite startswith_two in E. cbn [head] in E.
  rewrite andb_false_r in E. discriminate E.
Qed.

Lemma double_head s : head (R s) = head s.
Proof.
  destruct s as [|c t]; [reflexivity|].
  rewrite double_step. destruct (startswith (c :: t) [a; a]) eqn:E;
    [|reflexivity].
  rewrite startswith_two in E. apply andb_true_iff in E as [E _].
  apply bool_decide_eq_true_1 in E. subst c. reflexivity.
Qed.

Lemma startswith_two_inv (x y : N) s :
  startswith s [x; y] = true -> exists r, s = x :: y :: r.
Proof. intros [r ->]%startswith_spec. exists r. reflexivity. Qed.

(** Where no three [a] are adjacent, no two are left. *)
Lemma double_clears :
  forall n s, (length s <= n)%nat ->
  contains [a; a; a] s = false -> contains [a; a] (R s) = false.
Proof.
  induction n as [|n IH]; intros [|c t] Hlen H; try reflexivity;
    [cbn in Hlen; lia|].
  cbn [length] in Hlen. rewrite double_step.
  pose proof H as Hs. rewrite contains_cons in Hs.
  apply orb_false_elim in Hs as [Hhere Ht].
  destruct (startswith (c :: t) [a; a]) eqn:Em.
  - apply startswith_two_inv in Em as [t' Ht']. injection Ht' as -> ->.
    cbn [tail]. rewrite contains_cons, startswith_two.
    rewrite double_head.
    rewrite (IH t'); [|cbn [length] in Hlen; lia|apply (contains_tail _ a), Ht].
    rewrite orb_false_r, bool_decide_eq_true_2 by reflexivity. cbn [andb].
    rewrite startswith_three, startswith_two in Hhere.
    rewrite !bool_decide_eq_true_2 in Hhere by reflexivity.
    exact Hhere.
  - rewrite contains_cons, (IH t), orb_false_r;
      [|lia|exact Ht].
    rewrite startswith_two in Em |- *. rewrite double_head. exact Em.
Qed.

(** An [a] before another character is not made by the replacement. *)
Lemma double_keeps_pair (x : N) :
  x <> a ->
  forall n s, (length s <= n)%nat ->
  contains [a; x] s = false -> contains [a; x] (R s) = false.
Proof.
  intros Hx. induction n as [|n IH]; intros [|c t] Hlen H; try reflexivity;
    [cbn in Hlen; lia|].
  cbn [length] in Hlen. rewrite double_step.
  pose proof H as Hs. rewrite contains_cons in Hs.
  apply orb_false_elim in Hs as [Hhere Ht].
  destruct (startswith (c :: t) [a; a]) eqn:Em.
  - apply startswith_two_inv in Em as [t' Ht']. injection Ht' as -> ->.
    cbn [tail]. rewrite contains_cons, startswith_two, double_head.
    rewrite (IH t'); [|cbn [length] in Hlen; lia|apply (contains_tail _ a), Ht].
    rewrite orb_false_r, bool_decide_eq_true_2 by reflexivity. cbn [andb].
    rewrite contains_cons, startswith_two in Ht.
    apply orb_false_elim in Ht as [Ht _].
    rewrite bool_decide_eq_true_2 in Ht by reflexivity. exact Ht.
  - rewrite contains_cons, (IH t), orb_false_r; [|lia|exact Ht].
    rewrite startswith_two in Hhere |- *. rewrite double_head. exact Hhere.
Qed.

(** ... nor unmade. *)
Lemma double_pair_present (x : N) :
  x <> a ->
  forall n s, (length s <= n)%nat ->
  contains [a; x] s = true -> contains [a; x] (R s) = true.
Proof.
  intros Hx. induction n as [|n IH]; intros [|c t] Hlen H;
    try discriminate H; [cbn in Hlen; lia|].
  cbn [length] in Hlen. rewrite double_step.
  rewrite contains_cons in H.
  destruct (startswith (c :: t) [a; a]) eqn:Em.
  - apply startswith_two_inv in Em as [t' Ht']. injection Ht' as -> ->.
    cbn [tail]. rewrite startswith_two in H. cbn [head] in H.
    rewrite (bool_decide_eq_false_2 (Some a = Some x)) in H by congruence.
    rewrite andb_false_r in H. cbn [orb] in H.
    rewrite contains_cons, startswith_two in H.
    rewrite bool_decide_eq_true_2 in H by reflexivity. cbn [andb] in H.
    rewrite contains_cons, startswith_two, double_head.
    rewrite bool_decide_eq_true_2 by reflexivity. cbn [andb].
    destruct (bool_decide (head t' = Some x)); [reflexivity|].
    cbn [orb] in H |- *. apply IH; [cbn [length] in Hlen; lia|exact H].
  - rewrite contains_cons, startswith_two, double_head.
    rewrite startswith_two in H.
    destruct (bool_decide (a = c) && bool_decide (head t = Some x));
      [reflexivity|].
    cbn [orb] in H |- *. apply IH; [lia|exact H].
Qed.

(** A pattern without [a] stays. *)
Lemma double_startswith_kept :
  forall p s, a ∉ p -> startswith s p = true -> startswith (R s) p = true.
Proof.
  induction p as [|x p IH]; intros s Ha H; [reflexivity|].
  destruct s as [|c t]; [discriminate H|].
  apply not_elem_of_cons in Ha as [Hx Ha].
  cbn [startswith] in H.
  destruct (bool_decide_reflect (x = c)) as [->|]; [|discriminate H].
  rewrite double_step, startswith_two.
  rewrite (bool_decide_eq_false_2 (a = c)) by congruence. cbn [andb].
  cbn [startswith]. rewrite bool_decide_eq_true_2 by reflexivity.
  apply IH; [exact Ha|exact H].
Qed.

Lemma double_foreign_present p :
  a ∉ p -> p <> [] ->
  forall n s, (length s <= n)%nat ->
  contains p s = true -> contains p (R s) = true.
Proof.
  intros Ha Hp. induction n as [|n IH]; intros [|c t] Hlen H.
  - exact H.
  - cbn in Hlen; lia.
  - exact H.
  - cbn [length] in Hlen. rewrite contains_cons in H.
    destruct (startswith (c :: t) p) eqn:Es.
    + apply startswith_contains, double_startswith_kept; [exact Ha|exact Es].
    + cbn [orb] in H. rewrite double_step.
      destruct (startswith (c :: t) [a; a]) eqn:Em.
      * apply startswith_two_inv in Em as [t' Ht']. injection Ht' as -> ->.
        cbn [tail]. apply contains_further, IH; [cbn [length] in Hlen; lia|].
        rewrite contains_cons in H.
        destruct (startswith (a :: t') p) eqn:Es'; [|exact H].
        exfalso. destruct p as [|x p']; [congruence|].
        apply not_elem_of_cons in Ha as [Hx _]. cbn [startswith] in Es'.
        rewrite bool_decide_eq_false_2 in Es' by congruence.
        discriminate Es'.
      * apply contains_further, IH; [lia|exact H].
Qed.

(** Three [a] leave two. *)
Lemma double_run_present :
  forall n s, (length s <= n)%nat ->
  contains [a; a; a] s = true -> contains [a; a] (R s) = true.
Proof.
  induction n as [|n IH]; intros [|c t] Hlen H;
    try discriminate H; [cbn in Hlen; lia|].
  cbn [length] in Hlen. rewrite double_step.
  rewrite contains_cons in H.
  destruct (startswith (c :: t) [a; a]) eqn:Em.
  - apply startswith_two_inv in Em as [t' Ht']. injection Ht' as -> ->.
    cbn [tail]. rewrite contains_cons, startswith_two, double_head.
    rewrite bool_decide_eq_true_2 by reflexivity. cbn [andb].
    rewrite startswith_three, startswith_two in H.
    rewrite !bool_decide_eq_true_2 in H by reflexivity. cbn [andb] in H.
    destruct (bool_decide (head t' = Some a)) eqn:Eh; [reflexivity|].
    cbn [orb] in H |- *.
    apply IH; [cbn [length] in Hlen; lia|].
    rewrite contains_cons, startswith_three in H.
    destruct (startswith t' [a; a]) eqn:E2.
    { apply startswith_two_inv in E2 as [r ->]. cbn [head] in Eh.
      rewrite bool_decide_eq_true_2 in Eh by reflexivity. discriminate Eh. }
    rewrite andb_false_r in H. exact H.
  - rewrite startswith_three in H.
    destruct (bool_decide_reflect (a = c)) as [<-|Hc].
    + rewrite startswith_two in Em.
      rewrite bool_decide_eq_true_2 in Em by reflexivity. cbn [andb] in Em, H.
      destruct t as [|d t']; [discriminate H|].
      rewrite startswith_two in H. cbn [head] in Em.
      apply bool_decide_eq_false_1 in Em.
      rewrite (bool_decide_eq_false_2 (a = d)) in H by congruence.
      cbn [andb orb] in H.
      apply contains_further, IH; [lia|exact H].
    + cbn [andb orb] in H. apply contains_further, IH; [lia|exact H].
Qed.

End DoubleChar.

(** Three newlines to two, continued. *)
Section TripleRuns.
Implicit Types s p : str.

Local Abbreviation T := (replace_go [10; 10; 10] [10; 10] O).

Lemma startswith_three_inv (x y z : N) s :
  startswith s [x; y; z] = true -> exists r, s = x :: y :: z :: r.
Proof. intros [r ->]%startswith_spec. exists r. reflexivity. Qed.

Lemma startswith_cons (x c : N) p s :
  startswith (c :: s) (x :: p) = bool_decide (x = c) && startswith s p.
Proof. cbn [startswith]. destruct (bool_decide (x = c)); reflexivity. Qed.

Lemma startswith_foreign_head (x c : N) p s :
  x <> c -> startswith (c :: s) (x :: p) = false.
Proof. intros H. cbn [startswith]. now rewrite bool_decide_eq_false_2. Qed.

(** A pattern without a newline stays. *)
Lemma triple_startswith_kept :
  forall p s, 10 ∉ p -> startswith s p = true -> startswith (T s) p = true.
Proof.
  induction p as [|x p IH]; intros s Hn H; [reflexivity|].
  destruct s as [|c t]; [discriminate H|].
  apply not_elem_of_cons in Hn as [Hx Hn].
  cbn [startswith] in H.
  destruct (bool_decide_reflect (x = c)) as [->|]; [|discriminate H].
  rewrite triple_step, startswith3_cons.
  rewrite (bool_decide_eq_false_2 (10 = c)) by congruence. cbn [andb].
  cbn [startswith]. rewrite bool_decide_eq_true_2 by reflexivity.
  apply IH; [exact Hn|exact H].
Qed.

Lemma triple_foreign_present p :
  10 ∉ p -> p <> [] ->
  forall n s, (length s <= n)%nat ->
  contains p s = true -> contains p (T s) = true.
Proof.
  intros Hn Hp. destruct p as [|x p']; [congruence|].
  pose proof Hn as Hx. apply not_elem_of_cons in Hx as [Hx _].
  induction n as [|n IH]; intros [|c t] Hlen H.
  - exact H.
  - cbn in Hlen; lia.
  - exact H.
  - cbn [length] in Hlen. rewrite contains_cons in H.
    destruct (startswith (c :: t) (x :: p')) eqn:Es.
    + apply startswith_contains, triple_startswith_kept; [exact Hn|exact Es].
    + cbn [orb] in H. rewrite triple_step.
      destruct (startswith (c :: t) [10; 10; 10]) eqn:Em.
      * apply startswith_three_inv in Em as [r Hr]. injection Hr as -> ->.
        cbn [drop]. rewrite drop_0.
        do 2 apply contains_further.
        apply IH; [cbn [length] in Hlen; lia|].
        rewrite !contains_cons in H.
        rewrite !startswith_foreign_head in H by congruence.
        exact H.
      * apply contains_further, IH; [lia|exact H].
Qed.

(** Four newlines leave three. *)
Lemma triple_run_present :
  forall n s, (length s <= n)%nat ->
  contains [10; 10; 10; 10] s = true -> contains [10; 10; 10] (T s) = true.
Proof.
  induction n as [|n IH]; intros [|c t] Hlen H;
    try discriminate H; [cbn in Hlen; lia|].
  cbn [length] in Hlen. rewrite triple_step.
  rewrite contains_cons in H.
  destruct (startswith (c :: t) [10; 10; 10]) eqn:Em.
  - apply startswith_three_inv in Em as [r Hr]. injection Hr as -> ->.
    cbn [drop]. rewrite drop_0.
    destruct (bool_decide_reflect (head r = Some 10)) as [Hh|Hh].
    + apply startswith_contains.
      rewrite startswith3_cons, startswith2_cons, triple_head.
      rewrite !bool_decide_eq_true_2 by (reflexivity || exact Hh).
      reflexivity.
    + do 2 apply contains_further.
      apply IH; [cbn [length] in Hlen; lia|].
      assert (Hr : forall q, startswith r (10 :: q) = false).
      { intros q. destruct r as [|d r']; [reflexivity|].
        apply startswith_foreign_head. cbn in Hh. congruence. }
      rewrite !contains_cons, !startswith_cons in H.
      rewrite !Hr, !andb_false_r in H. exact H.
  - destruct (startswith (c :: t) [10; 10; 10; 10]) eqn:Es.
    + exfalso. apply startswith_spec in Es as [r Hr]. cbn in Hr.
      rewrite Hr in Em. cbn [startswith] in Em.
      rewrite !bool_decide_eq_true_2 in Em by reflexivity. discriminate Em.
    + cbn [orb] in H. apply contains_further, IH; [lia|exact H].
Qed.

End TripleRuns.

(** A replacement by a shorter text shortens the text it occurs in. *)
Section ReplaceShrinks.
Variables old new : str.
Hypothesis Hshorter : (length new < length old)%nat.

Lemma replace_go_shrinks (s : str) :
  contains old s = true ->
  (length (replace_go old new O s) < length s)%nat.
Proof.
  induction s as [|c t IH].
  - cbn [contains]. destruct old; [cbn in Hshorter; lia|discriminate].
  - rewrite contains_cons. intros H. cbn [replace_go].
    destruct (startswith (c :: t) old) eqn:E.
    + pose proof (startswith_length old new ltac:(lia) _ _ E) as Hlen.
      rewrite length_app. cbn [length] in Hlen |- *.
      pose proof (replace_go_length old new ltac:(lia) t
                    (length old - 1)%nat ltac:(lia)).
      lia.
    + cbn [orb] in H. specialize (IH H). cbn [length]. lia.
Qed.

End ReplaceShrinks.

Lemma replace_go_never_longer (old new x : str) :
  (length new <= length old)%nat ->
  (length (replace_go old new O x) <= length x)%nat.
Proof.
  intros H. pose proof (replace_go_length old new H x O ltac:(lia)). lia.
Qed.

(** What a pass still finds to correct in a text. *)
Lemma corrections_change (y : str) :
  contains [32; 44] y || contains [32; 46] y || contains [32; 32] y
  || contains [10; 10; 10] y = true ->
  Editor._apply_style_corrections y <> y.
Proof.
  intros Hflaw Heq. apply (f_equal (@length N)) in Heq. revert Heq.
  rewrite style_corrections_unfold.
  destruct (contains [32; 44] y) eqn:E1.
  { pose proof (replace_go_shrinks [32; 44] [44] ltac:(cbn; lia) y E1).
    set (x1 := replace_go [32; 44] [44] O y) in *.
    pose proof (replace_go_never_longer [32; 46] [46] x1 ltac:(cbn; lia)).
    set (x2 := replace_go [32; 46] [46] O x1) in *.
    pose proof (replace_go_never_longer [32; 32] [32] x2 ltac:(cbn; lia)).
    set (x3 := replace_go [32; 32] [32] O x2) in *.
    pose proof (replace_go_never_longer [10; 10; 10] [10; 10] x3
                  ltac:(cbn; lia)).
    lia. }
  rewrite (replace_go_absent [32; 44] [44] y E1).
  destruct (contains [32; 46] y) eqn:E2.
  { pose proof (replace_go_shrinks [32; 46] [46] ltac:(cbn; lia) y E2).
    set (x2 := replace_go [32; 46] [46] O y) in *.
    pose proof (replace_go_never_longer [32; 32] [32] x2 ltac:(cbn; lia)).
    set (x3 := replace_go [32; 32] [32] O x2) in *.
    pose proof (replace_go_never_longer [10; 10; 10] [10; 10] x3
                  ltac:(cbn; lia)).
    lia. }
  rewrite (replace_go_absent [32; 46] [46] y E2).
  destruct (contains [32; 32] y) eqn:E3.
  { pose proof (replace_go_shrinks [32; 32] [32] ltac:(cbn; lia) y E3).
    set (x3 := replace_go [32; 32] [32] O y) in *.
    pose proof (replace_go_never_longer [10; 10; 10] [10; 10] x3
                  ltac:(cbn; lia)).
    lia. }
  rewrite (replace_go_absent [32; 32] [32] y E3).
  cbn [orb] in Hflaw.
  pose proof (replace_go_shrinks [10; 10; 10] [10; 10] ltac:(cbn; lia) y Hflaw).
  lia.
Qed.

Ltac expose_pass :=
  match goal with
  | |- contains _ ?v = _ => unfold v
  end.

Ltac keep_absent H :=
  expose_pass;
  first
    [ apply delete_keeps_absent; [discriminate | absent_char | exact H]
    | match goal with
      | |- contains ?p (replace_go _ _ _ ?x) = false =>
          apply (triple_keeps_absent p ltac:(absent_char) (length x));
          [reflexivity | exact H]
      end ].

Ltac keep_present H :=
  expose_pass;
  first
    [ apply delete_keeps_present;
      [discriminate | absent_char | left; cbn; discriminate | exact H]
    | match goal with
      | |- contains ?p (replace_go _ _ _ ?x) = true =>
          first
            [ apply (triple_foreign_present p ltac:(absent_char)
                       ltac:(discriminate) (length x));
              [reflexivity | exact H]
            | apply (double_foreign_present 32 p ltac:(absent_char)
                       ltac:(discriminate) (length x));
              [reflexivity | exact H]
            | match p with
              | [32; ?c] =>
                  apply (double_pair_present 32 c ltac:(discriminate)
                           (length x));
                  [reflexivity | exact H]
              end ]
      end ].

(** What one pass leaves to correct: a run of three spaces, two spaces
    before a comma or a full stop, or four newlines in the text leave
    something the next pass changes. *)
Lemma corrections_leave_flaw (s : str) :
  contains [32; 32; 44] s || contains [32; 32; 46] s
  || contains [32; 32; 32] s || contains [10; 10; 10; 10] s = true ->
  contains [32; 44] (Editor._apply_style_corrections s)
  || contains [32; 46] (Editor._apply_style_corrections s)
  || contains [32; 32] (Editor._apply_style_corrections s)
  || contains [10; 10; 10] (Editor._apply_style_corrections s) = true.
Proof.
  rewrite style_corrections_unfold.
  set (x1 := replace_go [32; 44] [44] O s).
  set (x2 := replace_go [32; 46] [46] O x1).
  set (x3 := replace_go [32; 32] [32] O x2).
  set (x4 := replace_go [10; 10; 10] [10; 10] O x3).
  destruct (contains [32; 32; 44] s) eqn:Ec.
  { intros _.
    assert (H1 : contains [32; 44] x1 = true)
      by (apply delete_run_present; [discriminate | exact Ec]).
    assert (H2 : contains [32; 44] x2 = true) by keep_present H1.
    assert (H3 : contains [32; 44] x3 = true) by keep_present H2.
    assert (H4 : contains [32; 44] x4 = true) by keep_present H3.
    rewrite H4. reflexivity. }
  destruct (contains [32; 32; 46] s) eqn:Ep.
  { intros _.
    assert (H1 : contains [32; 32; 46] x1 = true) by keep_present Ep.
    assert (H2 : contains [32; 46] x2 = true)
      by (apply delete_run_present; [discriminate | exact H1]).
    assert (H3 : contains [32; 46] x3 = true) by keep_present H2.
    assert (H4 : contains [32; 46] x4 = true) by keep_present H3.
    rewrite H4, orb_true_r. reflexivity. }
  destruct (contains [32; 32; 32] s) eqn:Er.
  { intros _.
    assert (H1 : contains [32; 32; 32] x1 = true).
    { apply delete_keeps_present;
        [discriminate | absent_char | right | exact Er].
      destruct (contains ([32; 32; 32] ++ [44]) s) eqn:E; [|reflexivity].
      rewrite (contains_trans s [32; 32; 44] ([32; 32; 32] ++ [44])) in Ec;
        [discriminate Ec | reflexivity | exact E]. }
    assert (H1p : contains [32; 32; 46] x1 = false) by keep_absent Ep.
    assert (H2 : contains [32; 32; 32] x2 = true).
    { apply delete_keeps_present;
        [discriminate | absent_char | right | exact H1].
      destruct (contains ([32; 32; 32] ++ [46]) x1) eqn:E; [|reflexivity].
      rewrite (contains_trans x1 [32; 32; 46] ([32; 32; 32] ++ [46])) in H1p;
        [discriminate H1p | reflexivity | exact E]. }
    assert (H3 : contains [32; 32] x3 = true)
      by (apply (double_run_present 32 (length x2)); [reflexivity | exact H2]).
    assert (H4 : contains [32; 32] x4 = true) by keep_present H3.
    rewrite H4, !orb_true_r. reflexivity. }
  cbn [orb]. intros En.
  assert (H1 : contains [10; 10; 10; 10] x1 = true) by keep_present En.
  assert (H2 : contains [10; 10; 10; 10] x2 = true) by keep_present H1.
  assert (H3 : contains [10; 10; 10; 10] x3 = true) by keep_present H2.
  assert (H4 : contains [10; 10; 10] x4 = true)
    by (apply (triple_run_present (length x3)); [reflexivity | exact H3]).
  rewrite H4, !orb_true_r. reflexivity.
Qed.

(** C5, as the code has it.  The literal corrections reach a fixed
    point in one pass exactly on the texts with no three spaces in a
    row, no two spaces before a comma or a full stop, and no four
    newlines in a row: there, and only there, a second pass returns
    the first one's result. *)
Theorem style_corrections_idempotent (content : str) :
  Editor._apply_style_corrections (Editor._apply_style_corrections content)
  = Editor._apply_style_corrections content
  <-> contains (lit "   ") content = false
      /\ contains (lit "  ,") content = false
      /\ contains (lit "  .") content = false
      /\ contains (nl ++ nl ++ nl ++ nl) content = false.
Proof.
  change (lit "   ") with [32; 32; 32].
  change (lit "  ,") with [32; 32; 44].
  change (lit "  .") with [32; 32; 46].
  change (nl ++ nl ++ nl ++ nl) with [10; 10; 10; 10].
  split.
  - intros Hfixed.
    assert (Hnone : contains [32; 32; 44] content
                    || contains [32; 32; 46] content
                    || contains [32; 32; 32] content
                    || contains [10; 10; 10; 10] content = false).
    { destruct (_ || _ || _ || _) eqn:E; [|reflexivity].
      apply corrections_leave_flaw, corrections_change in E.
      now elim E. }
    apply orb_false_elim in Hnone as [Hnone Hn].
    apply orb_false_elim in Hnone as [Hnone Hr].
    apply orb_false_elim in Hnone as [Hc Hp].
    repeat split; assumption.
  - intros (Hr & Hc & Hp & Hn).
    rewrite (style_corrections_unfold content).
    set (x1 := replace_go [32; 44] [44] O content).
    assert (H1c : contains [32; 44] x1 = false)
      by (apply delete_clears_runs; [discriminate | exact Hc]).
    assert (H1p : contains [32; 32; 46] x1 = false) by keep_absent Hp.
    assert (H1r : contains [32; 32; 32] x1 = false) by keep_absent Hr.
    assert (H1n : contains [10; 10; 10; 10] x1 = false) by keep_absent Hn.
    set (x2 := replace_go [32; 46] [46] O x1).
    assert (H2c : contains [32; 44] x2 = false) by keep_absent H1c.
    assert (H2p : contains [32; 46] x2 = false)
      by (apply delete_clears_runs; [discriminate | exact H1p]).
    assert (H2r : contains [32; 32; 32] x2 = false) by keep_absent H1r.
    assert (H2n : contains [10; 10; 10; 10] x2 = false) by keep_absent H1n.
    set (x3 := replace_go [32; 32] [32] O x2).
    assert (H3c : contains [32; 44] x3 = false)
      by (apply (double_keeps_pair 32 44 ltac:(discriminate) (length x2));
          [reflexivity | exact H2c]).
    assert (H3p : contains [32; 46] x3 = false)
      by (apply (double_keeps_pair 32 46 ltac:(discriminate) (length x2));
          [reflexivity | exact H2p]).
    assert (H3s : contains [32; 32] x3 = false)
      by (apply (double_clears 32 (length x2)); [reflexivity | exact H2r]).
    assert (H3n : contains [10; 10; 10; 10] x3 = false).
    { apply replace_go_keeps_absent; [discriminate| |discriminate|exact H2n].
      intros c Hc'. apply list_elem_of_singleton in Hc' as ->. absent_char. }
    set (x4 := replace_go [10; 10; 10] [10; 10] O x3).
    assert (H4c : contains [32; 44] x4 = false) by keep_absent H3c.
    assert (H4p : contains [32; 46] x4 = false) by keep_absent H3p.
    assert (H4s : contains [32; 32] x4 = false) by keep_absent H3s.
    assert (H4n : contains [10; 10; 10] x4 = false)
      by (apply (triple_clears (length x3)); [reflexivity | exact H3n]).
    rewrite style_corrections_unfold.
    rewrite (replace_go_absent [32; 44] [44] x4 H4c).
    rewrite (replace_go_absent [32; 46] [46] x4 H4p).
    rewrite (replace_go_absent [32; 32] [32] x4 H4s).
    apply (replace_go_absent [10; 10; 10] [10; 10] x4 H4n).
Qed.

Lemma style_corrections_idempotent_witness :
  Editor._apply_style_corrections
    (Editor._apply_style_corrections
       (lit "Ela  chegou , enfim ." ++ nl ++ nl ++ nl ++ lit "Silêncio ."))
  = lit "Ela chegou, enfim." ++ nl ++ nl ++ lit "Silêncio.".
Proof.
  etransitivity.
  - apply style_corrections_idempotent. repeat split; vm_compute; reflexivity.
  - vm_compute. reflexivity.
Defined.
